(** * The BR service safe point keeper (pkg/utils/safe_point.go)

  A shallow embedding of the Go code that keeps a backup timestamp safe from
  garbage collection: [CheckGCSafePoint], [UpdateServiceSafePoint] and
  [StartServiceSafePointKeeper], with the PD client as an interface, the
  log, the PD calls and the tickers recorded in a trace, and a Go panic as
  an outcome of its own. *)

From Stdlib Require Import ZArith List String Lia Bool.
Import ListNotations.
Local Open Scope string_scope.
Local Open Scope list_scope.
Local Open Scope Z_scope.

(** ** Go's fixed-width integers

    [uint64] and [int64] values are integers of [Z]; every operation of the
    source that can leave the range is followed by its wrap-around. *)
Module Go.

Definition is_uint64 (z : Z) : Prop := 0 <= z < 2 ^ 64.
Definition is_int64 (z : Z) : Prop := - 2 ^ 63 <= z < 2 ^ 63.

Definition to_uint64 (z : Z) : Z := z mod 2 ^ 64.
Definition to_int64 (z : Z) : Z := (z + 2 ^ 63) mod 2 ^ 64 - 2 ^ 63.

(** [a - b] on uint64. *)
Definition sub_uint64 (a b : Z) : Z := to_uint64 (a - b).
(** [a * b] on int64. *)
Definition mul_int64 (a b : Z) : Z := to_int64 (a * b).
(** [a / b] on int64: the quotient is truncated toward zero. *)
Definition quo_int64 (a b : Z) : Z := to_int64 (Z.quot a b).

Definition MaxUint64 : Z := 2 ^ 64 - 1.

End Go.

(** ** package time: a Duration is an int64 count of nanoseconds *)
Module time.

Definition Duration := Z.
Definition Nanosecond : Duration := 1.
Definition Second : Duration := 1000000000.

End time.

(** ** Constants of the package (lines 21-27) *)
Definition brServiceSafePointIDFormat : string := "br-%s".
Definition preUpdateServiceSafePointFactor : Z := 3.
Definition checkGCSafePointGapTime : time.Duration := 5 * time.Second.
Definition DefaultBRGCSafePointTTL : Z := 5 * 60.

(** ** BRServiceSafePoint (lines 30-34) *)
Record BRServiceSafePoint := {
  ID : string;
  TTL : Z;        (* int64, seconds *)
  BackupTS : Z    (* uint64 *)
}.

(** MakeSafePointID (lines 58-60): the format [brServiceSafePointIDFormat]
    filled with a fresh UUID, which is the argument here. *)
Definition MakeSafePointID (uuid : string) : string := ("br-" ++ uuid)%string.

(** ** Errors

    A Go [error] that may be nil is an [option error].  [WithStack] is the
    wrapper that records a stack, [WithMessage] the wrapper that adds a
    message, kept as its format and arguments.  [ErrClient] is an error of
    the client that carries no stack, and ErrBackupGCSafepointExceeded, a
    normalized error of package berrors, carries none either. *)
Inductive error :=
| ErrClient (msg : string)
| ErrBackupGCSafepointExceeded
| WithStack (cause : error)
| WithMessage (cause : error) (format : string) (args : list Z).

Module errors.

(** [errors.HasStack]: is there a stack somewhere down the wrappers. *)
Fixpoint HasStack (e : error) : bool :=
  match e with
  | WithStack _ => true
  | WithMessage c _ _ => HasStack c
  | ErrClient _ => false
  | ErrBackupGCSafepointExceeded => false
  end.

(** [errors.AddStack]: records a stack unless the error has one. *)
Definition AddStack (e : error) : error :=
  if HasStack e then e else WithStack e.

(** [errors.Trace]: nil for nil, AddStack otherwise. *)
Definition Trace (err : option error) : option error :=
  match err with
  | None => None
  | Some e => Some (AddStack e)
  end.

(** [errors.Annotatef]: nil for nil; otherwise the message is added, and a
    stack on top of it when the error had none. *)
Definition Annotatef (err : option error) (format : string) (args : list Z)
  : option error :=
  match err with
  | None => None
  | Some e =>
      if HasStack e then Some (WithMessage e format args)
      else Some (WithStack (WithMessage e format args))
  end.

(** The error at the bottom of the wrappers ([errors.Cause]). *)
Fixpoint Cause (e : error) : error :=
  match e with
  | WithStack c => Cause c
  | WithMessage c _ _ => Cause c
  | _ => e
  end.

End errors.

(** ** What the code does to the outside: the trace *)
Inductive level := DebugLevel | WarnLevel | PanicLevel.

Inductive field :=
| zapError (err : error)
| zapObject (key : string) (sp : BRServiceSafePoint)
| zapUint64 (key : string) (v : Z).

Inductive ticker := updateTick | checkTick.

Inductive effect :=
| ELog (l : level) (msg : string) (fields : list field)
| ECallUpdateGCSafePoint (safePoint : Z)
| ECallUpdateServiceGCSafePoint (serviceID : string) (ttl : Z) (safePoint : Z)
| ENewTicker (t : ticker) (d : time.Duration)
| ETickerStop (t : ticker)
| EGo.

(** The calls to PD among the effects. *)
Definition is_pd_call (e : effect) : bool :=
  match e with
  | ECallUpdateGCSafePoint _ => true
  | ECallUpdateServiceGCSafePoint _ _ _ => true
  | _ => false
  end.

Definition pd_calls (t : list effect) : list effect := filter is_pd_call t.

(** ** The PD client (interface pd.Client)

    The two methods the file calls: [UpdateGCSafePoint(ctx, safePoint)] and
    [UpdateServiceGCSafePoint(ctx, serviceID, ttl, safePoint)], each
    returning [(uint64, error)].  A client has a state of its own, which a
    call may change; what it answers is of type uint64. *)
Class PDClient (PD : Type) := {
  UpdateGCSafePoint : PD -> Z -> PD * (Z * option error);
  UpdateServiceGCSafePoint : PD -> string -> Z -> Z -> PD * (Z * option error);
  UpdateGCSafePoint_uint64 :
    forall pd safePoint,
      Go.is_uint64 (fst (snd (UpdateGCSafePoint pd safePoint)));
  UpdateServiceGCSafePoint_uint64 :
    forall pd serviceID ttl safePoint,
      Go.is_uint64 (fst (snd (UpdateServiceGCSafePoint pd serviceID ttl safePoint)))
}.

(** ** The monad of the embedding: client state, trace, panic *)
Inductive result (A : Type) :=
| Ok (a : A)
| Panic (msg : string).
Arguments Ok {A} a.
Arguments Panic {A} msg.

Definition M (PD A : Type) : Type := PD -> result A * PD * list effect.

Definition ret {PD A} (a : A) : M PD A := fun pd => (Ok a, pd, []).

Definition bind {PD A B} (m : M PD A) (k : A -> M PD B) : M PD B :=
  fun pd =>
    match m pd with
    | (Ok a, pd1, t1) =>
        match k a pd1 with
        | (r, pd2, t2) => (r, pd2, t1 ++ t2)
        end
    | (Panic msg, pd1, t1) => (Panic msg, pd1, t1)
    end.

Definition emit {PD} (e : effect) : M PD unit := fun pd => (Ok tt, pd, [e]).

Definition panic {PD A} (msg : string) : M PD A := fun pd => (Panic msg, pd, []).

Declare Scope go_scope.
Delimit Scope go_scope with go.
Notation "x <- m ;; k" := (bind m (fun x => k))
  (at level 61, m at next level, right associativity) : go_scope.
Notation "m ;; k" := (bind m (fun _ => k))
  (at level 61, right associativity) : go_scope.
Local Open Scope go_scope.

Definition outcome {PD A} (r : result A * PD * list effect) : result A := fst (fst r).
Definition final_pd {PD A} (r : result A * PD * list effect) : PD := snd (fst r).
Definition trace_of {PD A} (r : result A * PD * list effect) : list effect := snd r.

(** ** package log *)
Module log.

Definition Debug {PD} (msg : string) (fields : list field) : M PD unit :=
  emit (ELog DebugLevel msg fields).

Definition Warn {PD} (msg : string) (fields : list field) : M PD unit :=
  emit (ELog WarnLevel msg fields).

(** [log.Panic] writes the entry, then panics with the message. *)
Definition Panic {PD A} (msg : string) (fields : list field) : M PD A :=
  emit (ELog PanicLevel msg fields) ;; panic msg.

End log.

(** [time.NewTicker d] of Go's library: the duration must be greater than
    zero, and NewTicker panics when it is not. *)
Definition NewTicker {PD} (t : ticker) (d : time.Duration) : M PD unit :=
  if d <=? 0 then panic "non-positive interval for NewTicker"
  else emit (ENewTicker t d).

Definition TickerStop {PD} (t : ticker) : M PD unit := emit (ETickerStop t).

Section SafePoint.

Context {PD : Type} {client : PDClient PD}.

(** The two calls to the client, recorded in the trace. *)
Definition callUpdateGCSafePoint (safePoint : Z) : M PD (Z * option error) :=
  fun pd =>
    let '(pd', r) := UpdateGCSafePoint pd safePoint in
    (Ok r, pd', [ECallUpdateGCSafePoint safePoint]).

Definition callUpdateServiceGCSafePoint (serviceID : string) (ttl safePoint : Z)
  : M PD (Z * option error) :=
  fun pd =>
    let '(pd', r) := UpdateServiceGCSafePoint pd serviceID ttl safePoint in
    (Ok r, pd', [ECallUpdateServiceGCSafePoint serviceID ttl safePoint]).

(** getGCSafePoint (lines 49-55). *)
Definition getGCSafePoint : M PD (Z * option error) :=
  r <- callUpdateGCSafePoint 0 ;;
  match r with
  | (_, Some err) => ret (0, errors.Trace (Some err))
  | (safePoint, None) => ret (safePoint, None)
  end.

(** CheckGCSafePoint (lines 64-75). *)
Definition CheckGCSafePoint (ts : Z) : M PD (option error) :=
  r <- getGCSafePoint ;;
  match r with
  | (_, Some err) =>
      log.Warn "fail to get GC safe point" [zapError err] ;;
      ret None
  | (safePoint, None) =>
      if ts <=? safePoint then
        ret (errors.Annotatef (Some ErrBackupGCSafepointExceeded)
               "GC safepoint %d exceed TS %d" [safePoint; ts])
      else ret None
  end.

(** UpdateServiceSafePoint (lines 78-91). *)
Definition UpdateServiceSafePoint (sp : BRServiceSafePoint) : M PD (option error) :=
  log.Debug "update PD safePoint limit with TTL" [zapObject "safePoint" sp] ;;
  r <- callUpdateServiceGCSafePoint (ID sp) (TTL sp) (Go.sub_uint64 (BackupTS sp) 1) ;;
  let '(lastSafePoint, err) := r in
  (if Go.sub_uint64 (BackupTS sp) 1 <? lastSafePoint then
     log.Warn
       "service GC safe point lost, we may fail to back up if GC lifetime isn't long enough"
       [zapUint64 "lastSafePoint" lastSafePoint; zapObject "safePoint" sp]
   else ret tt) ;;
  ret (errors.Trace err).

(** ** StartServiceSafePointKeeper (lines 95-135) *)

(** Line 101: [time.Duration(sp.TTL) * time.Second / preUpdateServiceSafePointFactor]. *)
Definition updateGapTime (sp : BRServiceSafePoint) : time.Duration :=
  Go.quo_int64 (Go.mul_int64 (TTL sp) time.Second) preUpdateServiceSafePointFactor.

(** The closure [update] (lines 102-108). *)
Definition update (sp : BRServiceSafePoint) : M PD unit :=
  err <- UpdateServiceSafePoint sp ;;
  match err with
  | Some e =>
      log.Warn "failed to update service safe point, backup may fail if gc triggered"
        [zapError e]
  | None => ret tt
  end.

(** The closure [check] (lines 109-116). *)
Definition check (sp : BRServiceSafePoint) : M PD unit :=
  err <- CheckGCSafePoint (BackupTS sp) ;;
  match err with
  | Some e =>
      log.Panic "cannot pass gc safe point check, aborting"
        [zapError e; zapObject "safePoint" sp]
  | None => ret tt
  end.

(** What the [select] of line 124 receives: the context is done, or one
    of the two tickers has fired. *)
Inductive event := ctxDone | updateTickC | checkTickC.

(** Where the goroutine is once the events have been served: waiting in
    the [select], or returned. *)
Inductive loop_state := Waiting | Returned.

(** The [for { select ... }] of lines 123-133, over the events its
    [select] receives, in the order it receives them. *)
Fixpoint keeperLoop (sp : BRServiceSafePoint) (events : list event) : M PD loop_state :=
  match events with
  | [] => ret Waiting
  | ctxDone :: _ =>
      log.Debug "service safe point keeper exited" [] ;;
      ret Returned
  | updateTickC :: rest => update sp ;; keeperLoop sp rest
  | checkTickC :: rest => check sp ;; keeperLoop sp rest
  end.

(** [defer]: the deferred calls run when the body returns and when it
    panics, not while it is waiting. *)
Definition deferring (body : M PD loop_state) (deferred : M PD unit) : M PD loop_state :=
  fun pd =>
    match body pd with
    | (Ok Waiting, pd1, t1) => (Ok Waiting, pd1, t1)
    | (r, pd1, t1) =>
        match deferred pd1 with
        | (_, pd2, t2) => (r, pd2, t1 ++ t2)
        end
    end.

(** The goroutine of lines 120-134; the deferred calls run last in,
    first out. *)
Definition keeperGoroutine (sp : BRServiceSafePoint) (events : list event)
  : M PD loop_state :=
  deferring (keeperLoop sp events)
    (TickerStop checkTick ;; TickerStop updateTick).

(** Lines 100-119 and the [go] of line 120: what the caller of
    StartServiceSafePointKeeper waits for. *)
Definition StartServiceSafePointKeeper (sp : BRServiceSafePoint) : M PD unit :=
  NewTicker updateTick (updateGapTime sp) ;;
  NewTicker checkTick checkGCSafePointGapTime ;;
  update sp ;;
  emit EGo.

(** The keeper from its start, the goroutine serving [events]. *)
Definition runKeeper (sp : BRServiceSafePoint) (events : list event) : M PD loop_state :=
  StartServiceSafePointKeeper sp ;;
  keeperGoroutine sp events.

End SafePoint.

(** The effects [t] came first, then those of [r]. *)
Definition after {PD A} (t : list effect) (r : result A * PD * list effect)
  : result A * PD * list effect :=
  (outcome r, final_pd r, t ++ trace_of r).

(** ** A client that answers from a script

    Its state is the list of the answers still to give, whichever method is
    called; once the script is over it answers [(0, nil)].  Every sequence
    of answers a real PD can give is the script of one such client. *)
Definition Script := list (Z * option error).

Definition nextAnswer (pd : Script) : Script * (Z * option error) :=
  match pd with
  | [] => ([], (0, None))
  | (v, err) :: rest => (rest, (Go.to_uint64 v, err))
  end.

#[export] Instance ScriptedPD : PDClient Script.
Proof.
  refine {| UpdateGCSafePoint := fun pd _ => nextAnswer pd;
            UpdateServiceGCSafePoint := fun pd _ _ _ => nextAnswer pd |}.
  - intros [|[v err] rest] _; cbn; unfold Go.is_uint64, Go.to_uint64;
      [lia | apply Z.mod_pos_bound; lia].
  - intros [|[v err] rest] _ _ _; cbn; unfold Go.is_uint64, Go.to_uint64;
      [lia | apply Z.mod_pos_bound; lia].
Defined.

(** The reservation of the examples: a backup at timestamp 1000, kept for
    ten minutes. *)
Definition sp600 : BRServiceSafePoint :=
  {| ID := "br-6ba7b810"; TTL := 600; BackupTS := 1000 |}.

(** A reservation whose TTL, in nanoseconds, does not fit an int64. *)
Definition spHugeTTL : BRServiceSafePoint :=
  {| ID := "br-6ba7b810"; TTL := 9223372037; BackupTS := 1000 |}.

(** A reservation with no TTL. *)
Definition spZeroTTL : BRServiceSafePoint :=
  {| ID := "br-6ba7b810"; TTL := 0; BackupTS := 1000 |}.

(** A reservation for the timestamp 0. *)
Definition spZeroTS : BRServiceSafePoint :=
  {| ID := "br-6ba7b810"; TTL := 300; BackupTS := 0 |}.

(** A client that gives the same answer to every call. *)
Definition Fixed := (Z * option error)%type.

#[export] Instance FixedPD : PDClient Fixed.
Proof.
  refine {| UpdateGCSafePoint := fun pd _ => (pd, (Go.to_uint64 (fst pd), snd pd));
            UpdateServiceGCSafePoint :=
              fun pd _ _ _ => (pd, (Go.to_uint64 (fst pd), snd pd)) |}.
  - intros pd _; cbn; unfold Go.is_uint64, Go.to_uint64;
      apply Z.mod_pos_bound; lia.
  - intros pd _ _ _; cbn; unfold Go.is_uint64, Go.to_uint64;
      apply Z.mod_pos_bound; lia.
Defined.

(** The call to PD that serving an event makes. *)
Definition tickCall (sp : BRServiceSafePoint) (ev : event) : list effect :=
  match ev with
  | ctxDone => []
  | updateTickC =>
      [ECallUpdateServiceGCSafePoint (ID sp) (TTL sp) (Go.sub_uint64 (BackupTS sp) 1)]
  | checkTickC => [ECallUpdateGCSafePoint 0]
  end.

(** The stops of tickers among the effects. *)
Definition is_ticker_stop (e : effect) : bool :=
  match e with
  | ETickerStop _ => true
  | _ => false
  end.

Definition ticker_stops (t : list effect) : list effect := filter is_ticker_stop t.

(** ** MarshalLogObject (lines 37-45)

    The encoder is the list of the fields added so far.  How a Duration and
    how the time of a timestamp print ([time.Duration.String], and
    [tsoutil.ParseTS] followed by [time.Time.String]) belongs to the
    libraries: both are taken as they come. *)
Inductive encoded :=
| AddString (key value : string)
| AddUint64 (key : string) (value : Z).

Section Marshal.

Variable DurationString : time.Duration -> string.
Variable ParseTSString : Z -> string.

Definition MarshalLogObject (sp : BRServiceSafePoint) (encoder : list encoded)
  : list encoded * option error :=
  let encoder := encoder ++ [AddString "ID" (ID sp)] in
  let ttlDuration := Go.mul_int64 (TTL sp) time.Second in
  let encoder := encoder ++ [AddString "TTL" (DurationString ttlDuration)] in
  let backupTime := ParseTSString (BackupTS sp) in
  let encoder := encoder ++ [AddString "BackupTime" backupTime] in
  let encoder := encoder ++ [AddUint64 "BackupTS" (BackupTS sp)] in
  (encoder, None).

End Marshal.

(** The messages of the log. *)
Definition msgLost : string :=
  "service GC safe point lost, we may fail to back up if GC lifetime isn't long enough".
Definition msgUpdateFailed : string :=
  "failed to update service safe point, backup may fail if gc triggered".
Definition msgExceeded : string := "cannot pass gc safe point check, aborting".
Definition msgExited : string := "service safe point keeper exited".

(** * Properties *)

(** ** Fixed-width arithmetic *)
Module GoFacts.

Lemma to_uint64_range z : Go.is_uint64 (Go.to_uint64 z).
Proof. unfold Go.is_uint64, Go.to_uint64. apply Z.mod_pos_bound. lia. Qed.

Lemma to_uint64_id z : Go.is_uint64 z -> Go.to_uint64 z = z.
Proof. unfold Go.is_uint64, Go.to_uint64. intros H. apply Z.mod_small. exact H. Qed.

Lemma to_int64_id z : Go.is_int64 z -> Go.to_int64 z = z.
Proof.
  unfold Go.is_int64, Go.to_int64. intros H.
  rewrite Z.mod_small by lia. lia.
Qed.

Lemma sub_uint64_one_zero : Go.sub_uint64 0 1 = Go.MaxUint64.
Proof. reflexivity. Qed.

Lemma sub_uint64_one_pos b :
  Go.is_uint64 b -> 0 < b -> Go.sub_uint64 b 1 = b - 1.
Proof.
  unfold Go.sub_uint64. intros Hb Hpos. apply to_uint64_id.
  unfold Go.is_uint64 in *. lia.
Qed.

(** [b - 1] is never [b], also when it wraps. *)
Lemma sub_uint64_one_neq b : Go.sub_uint64 b 1 <> b.
Proof.
  unfold Go.sub_uint64, Go.to_uint64. intros H.
  assert (Hr : 0 <= b < 2 ^ 64).
  { rewrite <- H. apply Z.mod_pos_bound. lia. }
  destruct (Z.eq_dec b 0) as [-> | Hnz].
  - discriminate H.
  - rewrite Z.mod_small in H by lia. lia.
Qed.

End GoFacts.

(** ** Errors *)

(** A stack added to an error leaves its cause. *)
Lemma Cause_AddStack (e : error) :
  errors.Cause (errors.AddStack e) = errors.Cause e.
Proof. unfold errors.AddStack. destruct (errors.HasStack e); reflexivity. Qed.

(** errors.Trace gives nil for nil only, and keeps the cause. *)
Lemma Cause_Trace (err : option error) :
  option_map errors.Cause (errors.Trace err) = option_map errors.Cause err.
Proof. destruct err as [e|]; cbn; [rewrite Cause_AddStack | ]; reflexivity. Qed.

(** An error that has a stack is traced as it is. *)
Lemma Trace_HasStack (e : error) :
  errors.HasStack e = true -> errors.Trace (Some e) = Some e.
Proof. intros H. unfold errors.Trace, errors.AddStack. rewrite H. reflexivity. Qed.

(** ** The one-shot check and the one-shot renewal *)
Section OneShot.

Context {PD : Type} {client : PDClient PD}.

Lemma bind_Ok {A B} (m : M PD A) (k : A -> M PD B) pd a pd1 t1 :
  m pd = (Ok a, pd1, t1) -> bind m k pd = after t1 (k a pd1).
Proof.
  intros H. unfold bind, after, outcome, final_pd, trace_of. rewrite H.
  destruct (k a pd1) as [[r pd2] t2]. reflexivity.
Qed.

Lemma bind_Panic {A B} (m : M PD A) (k : A -> M PD B) pd msg pd1 t1 :
  m pd = (Panic msg, pd1, t1) -> bind m k pd = (Panic msg, pd1, t1).
Proof. intros H. unfold bind. rewrite H. reflexivity. Qed.

Lemma after_nil {A} (r : result A * PD * list effect) : after [] r = r.
Proof. destruct r as [[r pd] t]. reflexivity. Qed.

Lemma after_after {A} t t' (r : result A * PD * list effect) :
  after t (after t' r) = after (t ++ t') r.
Proof.
  destruct r as [[r pd] t'']. unfold after, outcome, final_pd, trace_of. cbn.
  rewrite app_assoc. reflexivity.
Qed.

(** What getGCSafePoint hands to its caller. *)
Lemma getGCSafePoint_eq pd :
  getGCSafePoint pd =
    let '(pd', (safePoint, err)) := UpdateGCSafePoint pd 0 in
    (Ok (match err with
         | Some e => (0, Some (errors.AddStack e))
         | None => (safePoint, None)
         end), pd', [ECallUpdateGCSafePoint 0]).
Proof.
  unfold getGCSafePoint, bind, callUpdateGCSafePoint.
  destruct (UpdateGCSafePoint pd 0) as [pd' [safePoint [e|]]]; reflexivity.
Qed.

(** CheckGCSafePoint as one case analysis on the client's answer. *)
Lemma CheckGCSafePoint_eq ts pd :
  CheckGCSafePoint ts pd =
    let '(pd', (safePoint, err)) := UpdateGCSafePoint pd 0 in
    match err with
    | Some e =>
        (Ok None, pd',
         [ECallUpdateGCSafePoint 0;
          ELog WarnLevel "fail to get GC safe point" [zapError (errors.AddStack e)]])
    | None =>
        (Ok (if ts <=? safePoint
             then Some (WithStack
                          (WithMessage ErrBackupGCSafepointExceeded
                             "GC safepoint %d exceed TS %d" [safePoint; ts]))
             else None), pd', [ECallUpdateGCSafePoint 0])
    end.
Proof.
  unfold CheckGCSafePoint, bind. rewrite getGCSafePoint_eq.
  destruct (UpdateGCSafePoint pd 0) as [pd' [safePoint [e|]]]; cbn.
  - reflexivity.
  - destruct (ts <=? safePoint); reflexivity.
Qed.

(** UpdateServiceSafePoint as one case analysis on the client's answer. *)
Lemma UpdateServiceSafePoint_eq sp pd :
  UpdateServiceSafePoint sp pd =
    let '(pd', (lastSafePoint, err)) :=
      UpdateServiceGCSafePoint pd (ID sp) (TTL sp) (Go.sub_uint64 (BackupTS sp) 1) in
    (Ok (errors.Trace err), pd',
     [ELog DebugLevel "update PD safePoint limit with TTL" [zapObject "safePoint" sp];
      ECallUpdateServiceGCSafePoint (ID sp) (TTL sp) (Go.sub_uint64 (BackupTS sp) 1)]
     ++ (if Go.sub_uint64 (BackupTS sp) 1 <? lastSafePoint
         then [ELog WarnLevel msgLost
                 [zapUint64 "lastSafePoint" lastSafePoint; zapObject "safePoint" sp]]
         else [])).
Proof.
  unfold UpdateServiceSafePoint, bind, callUpdateServiceGCSafePoint, log.Debug, emit.
  destruct (UpdateServiceGCSafePoint pd (ID sp) (TTL sp) (Go.sub_uint64 (BackupTS sp) 1))
    as [pd' [lastSafePoint err]]; cbn.
  destruct (Go.sub_uint64 (BackupTS sp) 1 <? lastSafePoint); reflexivity.
Qed.

(** C1: when the query of the GC safe point succeeds with [safePoint],
    CheckGCSafePoint returns the GC-exceeded error, annotated with
    [safePoint] and [ts] and with the stack that errors.Annotatef records,
    exactly when [ts <= safePoint], and returns nil exactly when
    [ts > safePoint]. *)
Theorem CheckGCSafePoint_exceeded_iff (ts safePoint : Z) (pd pd' : PD) :
  UpdateGCSafePoint pd 0 = (pd', (safePoint, None)) ->
  (ts <= safePoint <->
     outcome (CheckGCSafePoint ts pd) =
       Ok (Some (WithStack
                   (WithMessage ErrBackupGCSafepointExceeded
                      "GC safepoint %d exceed TS %d" [safePoint; ts]))))
  /\ (ts > safePoint <-> outcome (CheckGCSafePoint ts pd) = Ok None).
Proof.
  intros Hq. rewrite CheckGCSafePoint_eq, Hq. cbn.
  destruct (Z.leb_spec ts safePoint) as [Hle | Hgt]; split; split;
    intros H; try reflexivity; try discriminate H; lia.
Qed.

(** C2: when the query of the GC safe point fails, CheckGCSafePoint returns
    nil for every [ts]; the failure goes to the log as a warning and nowhere
    else. *)
Theorem CheckGCSafePoint_query_failure_swallowed
  (ts v : Z) (err : error) (pd pd' : PD) :
  UpdateGCSafePoint pd 0 = (pd', (v, Some err)) ->
  CheckGCSafePoint ts pd =
    (Ok None, pd',
     [ECallUpdateGCSafePoint 0;
      ELog WarnLevel "fail to get GC safe point" [zapError (errors.AddStack err)]]).
Proof.
  intros Hq. rewrite CheckGCSafePoint_eq, Hq. reflexivity.
Qed.

(** C3: the renewal makes one call to PD, with the reservation's ID, its
    TTL and [BackupTS - 1] (uint64 arithmetic); the timestamp sent is never
    BackupTS itself, and is the integer [BackupTS - 1] unless BackupTS is 0. *)
Theorem UpdateServiceSafePoint_submits_BackupTS_minus_one
  (sp : BRServiceSafePoint) (pd : PD) :
  Go.is_uint64 (BackupTS sp) ->
  pd_calls (trace_of (UpdateServiceSafePoint sp pd)) =
    [ECallUpdateServiceGCSafePoint (ID sp) (TTL sp) (Go.sub_uint64 (BackupTS sp) 1)]
  /\ final_pd (UpdateServiceSafePoint sp pd) =
       fst (UpdateServiceGCSafePoint pd (ID sp) (TTL sp) (Go.sub_uint64 (BackupTS sp) 1))
  /\ Go.sub_uint64 (BackupTS sp) 1 <> BackupTS sp
  /\ Go.sub_uint64 (BackupTS sp) 1 =
       (if BackupTS sp =? 0 then Go.MaxUint64 else BackupTS sp - 1).
Proof.
  intros Hts. rewrite UpdateServiceSafePoint_eq.
  destruct (UpdateServiceGCSafePoint pd (ID sp) (TTL sp) (Go.sub_uint64 (BackupTS sp) 1))
    as [pd' [lastSafePoint err]]; cbn.
  repeat split.
  - destruct (Go.sub_uint64 (BackupTS sp) 1 <? lastSafePoint); reflexivity.
  - apply GoFacts.sub_uint64_one_neq.
  - destruct (Z.eqb_spec (BackupTS sp) 0) as [-> | Hnz].
    + reflexivity.
    + apply GoFacts.sub_uint64_one_pos; [exact Hts | unfold Go.is_uint64 in Hts; lia].
Qed.

(** C7: when PD reports a previous value above [BackupTS - 1], the renewal
    logs the warning that the service safe point is lost and returns what
    errors.Trace makes of the client's error: nil when the call itself
    succeeded.  The comparison adds no error. *)
Theorem UpdateServiceSafePoint_lost_is_warning_only
  (sp : BRServiceSafePoint) (pd pd' : PD) (lastSafePoint : Z) (err : option error) :
  UpdateServiceGCSafePoint pd (ID sp) (TTL sp) (Go.sub_uint64 (BackupTS sp) 1)
    = (pd', (lastSafePoint, err)) ->
  lastSafePoint > Go.sub_uint64 (BackupTS sp) 1 ->
  UpdateServiceSafePoint sp pd =
    (Ok (errors.Trace err), pd',
     [ELog DebugLevel "update PD safePoint limit with TTL" [zapObject "safePoint" sp];
      ECallUpdateServiceGCSafePoint (ID sp) (TTL sp) (Go.sub_uint64 (BackupTS sp) 1);
      ELog WarnLevel msgLost
        [zapUint64 "lastSafePoint" lastSafePoint; zapObject "safePoint" sp]])
  /\ (errors.Trace err = None <-> err = None).
Proof.
  intros Hc Hgt. rewrite UpdateServiceSafePoint_eq, Hc.
  destruct (Z.ltb_spec (Go.sub_uint64 (BackupTS sp) 1) lastSafePoint) as [_ | Hle];
    [ | lia ].
  split; [reflexivity | ].
  destruct err; cbn; split; intros H; try reflexivity; discriminate H.
Qed.

(** C10: with BackupTS = 0 the renewal sends [2^64 - 1] to PD, and the
    warning that the service safe point is lost is not logged, whatever PD
    answers. *)
Theorem UpdateServiceSafePoint_BackupTS_zero_wraps
  (sp : BRServiceSafePoint) (pd : PD) :
  BackupTS sp = 0 ->
  Go.sub_uint64 (BackupTS sp) 1 = 2 ^ 64 - 1
  /\ trace_of (UpdateServiceSafePoint sp pd) =
       [ELog DebugLevel "update PD safePoint limit with TTL" [zapObject "safePoint" sp];
        ECallUpdateServiceGCSafePoint (ID sp) (TTL sp) (2 ^ 64 - 1)]
  /\ (forall fields,
        ~ In (ELog WarnLevel msgLost fields) (trace_of (UpdateServiceSafePoint sp pd))).
Proof.
  intros Hz. rewrite UpdateServiceSafePoint_eq, Hz.
  change (Go.sub_uint64 0 1) with (2 ^ 64 - 1).
  pose proof (UpdateServiceGCSafePoint_uint64 pd (ID sp) (TTL sp) (2 ^ 64 - 1)) as Hr.
  destruct (UpdateServiceGCSafePoint pd (ID sp) (TTL sp) (2 ^ 64 - 1))
    as [pd' [lastSafePoint err]]; cbn in *.
  unfold Go.is_uint64 in Hr.
  match goal with
  | |- context [?a <? ?b] => destruct (Z.ltb_spec a b) as [Hlt | _]; [ lia | ]
  end.
  split; [reflexivity | split; [reflexivity | ]].
  intros fields [H | [H | []]]; discriminate H.
Qed.

End OneShot.

(** ** The keeper *)
Section Keeper.

Context {PD : Type} {client : PDClient PD}.

Implicit Types (sp : BRServiceSafePoint) (pd : PD) (t : list effect).

(** The effects of one renewal, from what PD answered. *)
Lemma update_eq sp pd :
  update sp pd =
    let '(pd', (lastSafePoint, err)) :=
      UpdateServiceGCSafePoint pd (ID sp) (TTL sp) (Go.sub_uint64 (BackupTS sp) 1) in
    (Ok tt, pd',
     [ELog DebugLevel "update PD safePoint limit with TTL" [zapObject "safePoint" sp];
      ECallUpdateServiceGCSafePoint (ID sp) (TTL sp) (Go.sub_uint64 (BackupTS sp) 1)]
     ++ (if Go.sub_uint64 (BackupTS sp) 1 <? lastSafePoint
         then [ELog WarnLevel msgLost
                 [zapUint64 "lastSafePoint" lastSafePoint; zapObject "safePoint" sp]]
         else [])
     ++ match err with
        | Some e => [ELog WarnLevel msgUpdateFailed [zapError (errors.AddStack e)]]
        | None => []
        end).
Proof.
  unfold update, bind. rewrite UpdateServiceSafePoint_eq.
  destruct (UpdateServiceGCSafePoint pd (ID sp) (TTL sp) (Go.sub_uint64 (BackupTS sp) 1))
    as [pd' [lastSafePoint [e|]]]; cbn;
    destruct (Go.sub_uint64 (BackupTS sp) 1 <? lastSafePoint); reflexivity.
Qed.

(** A renewal never panics, and calls PD once. *)
Lemma update_Ok sp pd :
  exists pd' t,
    update sp pd = (Ok tt, pd', t)
    /\ pd_calls t =
         [ECallUpdateServiceGCSafePoint (ID sp) (TTL sp) (Go.sub_uint64 (BackupTS sp) 1)].
Proof.
  rewrite update_eq.
  destruct (UpdateServiceGCSafePoint pd (ID sp) (TTL sp) (Go.sub_uint64 (BackupTS sp) 1))
    as [pd' [lastSafePoint err]].
  eexists; eexists; split; [reflexivity | ].
  destruct (Go.sub_uint64 (BackupTS sp) 1 <? lastSafePoint), err; reflexivity.
Qed.

(** The closure [check], from what CheckGCSafePoint returned. *)
Lemma check_eq sp pd err pd' t :
  CheckGCSafePoint (BackupTS sp) pd = (Ok err, pd', t) ->
  check sp pd =
    match err with
    | Some e =>
        (Panic msgExceeded, pd',
         t ++ [ELog PanicLevel msgExceeded [zapError e; zapObject "safePoint" sp]])
    | None => (Ok tt, pd', t)
    end.
Proof.
  intros H. unfold check, bind. rewrite H.
  destruct err as [e|]; cbn; [reflexivity | rewrite app_nil_r; reflexivity].
Qed.

(** The check never panics. *)
Lemma CheckGCSafePoint_total ts pd :
  exists err pd' t, CheckGCSafePoint ts pd = (Ok err, pd', t).
Proof.
  rewrite CheckGCSafePoint_eq.
  destruct (UpdateGCSafePoint pd 0) as [pd' [safePoint [e|]]]; cbn; eauto.
Qed.

(** The only error CheckGCSafePoint returns is the GC-exceeded one. *)
Lemma CheckGCSafePoint_error_cause ts pd e :
  outcome (CheckGCSafePoint ts pd) = Ok (Some e) ->
  errors.Cause e = ErrBackupGCSafepointExceeded.
Proof.
  rewrite CheckGCSafePoint_eq.
  destruct (UpdateGCSafePoint pd 0) as [pd' [safePoint [e'|]]]; cbn.
  - discriminate.
  - destruct (ts <=? safePoint); cbn; intros H;
      [injection H as <-; reflexivity | discriminate H].
Qed.

(** A check either lets the loop go on or panics with the abort message. *)
Lemma check_cases sp pd :
  (exists pd' t, check sp pd = (Ok tt, pd', t))
  \/ (exists pd' t, check sp pd = (Panic msgExceeded, pd', t)).
Proof.
  destruct (CheckGCSafePoint_total (BackupTS sp) pd) as (err & pd' & t & H).
  rewrite (check_eq _ _ _ _ _ H). destruct err; eauto.
Qed.

Lemma after_inv {A} t (r : result A * PD * list effect) o pd1 t1 :
  after t r = (o, pd1, t1) ->
  exists t', r = (o, pd1, t') /\ t1 = t ++ t'.
Proof.
  destruct r as [[o' pd'] t']. unfold after, outcome, final_pd, trace_of; cbn.
  intros H. injection H as <- <- <-. eauto.
Qed.

Lemma outcome_after {A} t (r : result A * PD * list effect) :
  outcome (after t r) = outcome r.
Proof. reflexivity. Qed.

(** One step of the loop, for each event. *)
Lemma keeperLoop_update sp rest pd pd' t :
  update sp pd = (Ok tt, pd', t) ->
  keeperLoop sp (updateTickC :: rest) pd = after t (keeperLoop sp rest pd').
Proof.
  intros H. cbn [keeperLoop].
  exact (bind_Ok (update sp) (fun _ => keeperLoop sp rest) pd tt pd' t H).
Qed.

Lemma keeperLoop_check_Ok sp rest pd pd' t :
  check sp pd = (Ok tt, pd', t) ->
  keeperLoop sp (checkTickC :: rest) pd = after t (keeperLoop sp rest pd').
Proof.
  intros H. cbn [keeperLoop].
  exact (bind_Ok (check sp) (fun _ => keeperLoop sp rest) pd tt pd' t H).
Qed.

Lemma keeperLoop_check_Panic sp rest pd msg pd' t :
  check sp pd = (Panic msg, pd', t) ->
  keeperLoop sp (checkTickC :: rest) pd = (Panic msg, pd', t).
Proof.
  intros H. cbn [keeperLoop].
  exact (bind_Panic (check sp) (fun _ => keeperLoop sp rest) pd msg pd' t H).
Qed.

(** While the loop waits, the events to come are served from where the
    events so far have left PD and the trace. *)
Lemma keeperLoop_app sp pre rest :
  forall pd pd1 t1,
    keeperLoop sp pre pd = (Ok Waiting, pd1, t1) ->
    keeperLoop sp (pre ++ rest) pd = after t1 (keeperLoop sp rest pd1).
Proof.
  induction pre as [| ev pre IH]; intros pd pd1 t1 H.
  - cbn in H. injection H as <- <-. rewrite after_nil. reflexivity.
  - destruct ev; cbn [app].
    + cbn in H. discriminate H.
    + destruct (update_Ok sp pd) as (pd0 & t0 & Hu & _).
      rewrite (keeperLoop_update sp pre _ _ _ Hu) in H.
      rewrite (keeperLoop_update sp (pre ++ rest) _ _ _ Hu).
      apply after_inv in H. destruct H as (t' & H & ->).
      rewrite (IH _ _ _ H), after_after. reflexivity.
    + destruct (check_cases sp pd) as [(pd0 & t0 & Hc) | (pd0 & t0 & Hc)].
      * rewrite (keeperLoop_check_Ok sp pre _ _ _ Hc) in H.
        rewrite (keeperLoop_check_Ok sp (pre ++ rest) _ _ _ Hc).
        apply after_inv in H. destruct H as (t' & H & ->).
        rewrite (IH _ _ _ H), after_after. reflexivity.
      * rewrite (keeperLoop_check_Panic _ _ _ _ _ _ Hc) in H. discriminate H.
Qed.

Lemma outcome_keeperGoroutine sp events pd :
  outcome (keeperGoroutine sp events pd) = outcome (keeperLoop sp events pd).
Proof.
  unfold keeperGoroutine, deferring.
  destruct (keeperLoop sp events pd) as [[[[|]|msg] pd1] t1]; reflexivity.
Qed.

Lemma keeperGoroutine_app sp pre rest pd pd1 t1 :
  keeperLoop sp pre pd = (Ok Waiting, pd1, t1) ->
  keeperGoroutine sp (pre ++ rest) pd = after t1 (keeperGoroutine sp rest pd1).
Proof.
  intros H. unfold keeperGoroutine, deferring.
  rewrite (keeperLoop_app _ _ rest _ _ _ H).
  destruct (keeperLoop sp rest pd1) as [[[[|]|msg] pd2] t2];
    unfold after, outcome, final_pd, trace_of; cbn;
    rewrite ?app_assoc; reflexivity.
Qed.

(** The renewal period in the range where [TTL] seconds fit a Duration. *)
Lemma updateGapTime_in_range sp :
  0 < TTL sp <= 9223372036 ->
  updateGapTime sp = TTL sp * time.Second / 3.
Proof.
  intros H. unfold updateGapTime, Go.quo_int64, Go.mul_int64,
    preUpdateServiceSafePointFactor, time.Second.
  rewrite (GoFacts.to_int64_id (TTL sp * 1000000000))
    by (unfold Go.is_int64; lia).
  rewrite Z.quot_div_nonneg by lia.
  apply GoFacts.to_int64_id. unfold Go.is_int64.
  pose proof (Z.div_pos (TTL sp * 1000000000) 3).
  pose proof (Z.div_le_upper_bound (TTL sp * 1000000000) 3 (TTL sp * 1000000000)).
  lia.
Qed.

Lemma updateGapTime_pos sp :
  0 < TTL sp <= 9223372036 -> 0 < updateGapTime sp.
Proof.
  intros H. rewrite (updateGapTime_in_range sp H).
  unfold time.Second. apply Z.div_str_pos. lia.
Qed.

(** Without a positive TTL the period is not positive. *)
Lemma updateGapTime_nonpos sp :
  - 9223372036 <= TTL sp <= 0 -> updateGapTime sp <= 0.
Proof.
  intros H. unfold updateGapTime, Go.quo_int64, Go.mul_int64,
    preUpdateServiceSafePointFactor, time.Second.
  rewrite (GoFacts.to_int64_id (TTL sp * 1000000000))
    by (unfold Go.is_int64; lia).
  assert (Hq : - (2 ^ 63) <= TTL sp * 1000000000 ÷ 3 <= 0).
  { rewrite <- (Z.opp_involutive (TTL sp * 1000000000)), Z.quot_opp_l by lia.
    rewrite Z.quot_div_nonneg by lia.
    pose proof (Z.div_pos (- (TTL sp * 1000000000)) 3).
    pose proof (Z.div_le_upper_bound (- (TTL sp * 1000000000)) 3
                  (- (TTL sp * 1000000000))).
    lia. }
  rewrite GoFacts.to_int64_id by (unfold Go.is_int64; lia). lia.
Qed.

(** The start of the keeper when both tickers can be made. *)
Lemma StartServiceSafePointKeeper_eq sp pd pd1 t :
  0 < updateGapTime sp ->
  update sp pd = (Ok tt, pd1, t) ->
  StartServiceSafePointKeeper sp pd =
    (Ok tt, pd1,
     ([ENewTicker updateTick (updateGapTime sp);
       ENewTicker checkTick checkGCSafePointGapTime] ++ t) ++ [EGo]).
Proof.
  intros Hpos Hu. unfold StartServiceSafePointKeeper, NewTicker.
  destruct (Z.leb_spec (updateGapTime sp) 0) as [Hle | _]; [lia | ].
  change (checkGCSafePointGapTime <=? 0) with false. cbv iota.
  unfold bind at 1. cbn [emit].
  unfold bind at 1. cbn [emit].
  unfold bind. rewrite Hu. cbn. reflexivity.
Qed.

(** When the period is not positive, the first ticker cannot be made:
    the start panics before the renewal. *)
Lemma StartServiceSafePointKeeper_panics sp pd :
  updateGapTime sp <= 0 ->
  StartServiceSafePointKeeper sp pd =
    (Panic "non-positive interval for NewTicker", pd, []).
Proof.
  intros Hle. unfold StartServiceSafePointKeeper, NewTicker.
  destruct (Z.leb_spec (updateGapTime sp) 0) as [_ | Hgt]; [ | lia].
  reflexivity.
Qed.

(** C5 (amended): for [0 < TTL <= 9223372036], the range in which [TTL]
    seconds fit a Duration, the renewal ticker is made with the period
    [TTL * 10^9 / 3] nanoseconds, a third of [TTL] seconds rounded down to
    the nanosecond, and the check ticker with 5 seconds. *)
Theorem keeper_periods (sp : BRServiceSafePoint) (pd : PD) :
  0 < TTL sp <= 9223372036 ->
  updateGapTime sp = TTL sp * time.Second / 3
  /\ 3 * updateGapTime sp <= TTL sp * time.Second < 3 * updateGapTime sp + 3
  /\ checkGCSafePointGapTime = 5 * time.Second
  /\ exists t,
       trace_of (StartServiceSafePointKeeper sp pd) =
         ENewTicker updateTick (TTL sp * time.Second / 3)
         :: ENewTicker checkTick (5 * time.Second) :: t.
Proof.
  intros H. pose proof (updateGapTime_in_range sp H) as Hg.
  assert (Hpos : 0 < updateGapTime sp).
  { rewrite Hg. unfold time.Second. apply Z.div_str_pos. lia. }
  split; [exact Hg | split; [ | split; [reflexivity | ]]].
  - rewrite Hg. unfold time.Second.
    pose proof (Z.mul_div_le (TTL sp * 1000000000) 3).
    pose proof (Z.mul_succ_div_gt (TTL sp * 1000000000) 3). lia.
  - destruct (update_Ok sp pd) as (pd1 & t & Hu & _).
    rewrite (StartServiceSafePointKeeper_eq sp pd pd1 t Hpos Hu), Hg.
    exists (t ++ [EGo]). reflexivity.
Qed.

(** C6 (amended): when the renewal period is positive, so that the tickers
    can be made, starting the keeper makes one renewal call to PD before the
    goroutine is started, and whatever events the goroutine then serves come
    after it. *)
Theorem keeper_start_renews_once_first (sp : BRServiceSafePoint) (pd : PD) :
  0 < updateGapTime sp ->
  exists pd1 t_sync,
    StartServiceSafePointKeeper sp pd = (Ok tt, pd1, t_sync ++ [EGo])
    /\ pd_calls t_sync =
         [ECallUpdateServiceGCSafePoint (ID sp) (TTL sp) (Go.sub_uint64 (BackupTS sp) 1)]
    /\ forall events,
         runKeeper sp events pd = after (t_sync ++ [EGo]) (keeperGoroutine sp events pd1).
Proof.
  intros Hpos. destruct (update_Ok sp pd) as (pd1 & t & Hu & Hcalls).
  pose proof (StartServiceSafePointKeeper_eq sp pd pd1 t Hpos Hu) as Hs.
  exists pd1. eexists. split; [exact Hs | split].
  - cbn. exact Hcalls.
  - intros events. unfold runKeeper.
    exact (bind_Ok (StartServiceSafePointKeeper sp) (fun _ => keeperGoroutine sp events)
             pd tt pd1 _ Hs).
Qed.

(** C4: when a tick of the check ticker finds the loop waiting and the check
    returns an error, which is the GC-exceeded one, the goroutine logs at
    panic level and panics: the deferred calls stop the tickers and no
    event that follows is served.  When the check returns nil the loop goes
    on with the events that follow. *)
Theorem keeper_check_exceeded_is_fatal
  (sp : BRServiceSafePoint) (pre post : list event) (pd pd1 pd2 : PD)
  (t1 t2 : list effect) (err : option error) :
  keeperLoop sp pre pd = (Ok Waiting, pd1, t1) ->
  CheckGCSafePoint (BackupTS sp) pd1 = (Ok err, pd2, t2) ->
  keeperGoroutine sp (pre ++ checkTickC :: post) pd =
    match err with
    | Some e =>
        (Panic msgExceeded, pd2,
         t1 ++ t2 ++
           [ELog PanicLevel msgExceeded [zapError e; zapObject "safePoint" sp];
            ETickerStop checkTick; ETickerStop updateTick])
    | None => after (t1 ++ t2) (keeperGoroutine sp post pd2)
    end.
Proof.
  intros Hpre Hcheck.
  rewrite (keeperGoroutine_app sp pre (checkTickC :: post) pd pd1 t1 Hpre).
  pose proof (check_eq sp pd1 err pd2 t2 Hcheck) as Hc.
  destruct err as [e|].
  - unfold keeperGoroutine, deferring.
    rewrite (keeperLoop_check_Panic sp post pd1 _ _ _ Hc).
    unfold after, outcome, final_pd, trace_of; cbn.
    rewrite <- app_assoc. reflexivity.
  - change (checkTickC :: post) with ([checkTickC] ++ post).
    rewrite (keeperGoroutine_app sp [checkTickC] post pd1 pd2 t2).
    + apply after_after.
    + rewrite (keeperLoop_check_Ok sp [] pd1 pd2 t2 Hc). cbn.
      unfold after, ret, outcome, final_pd, trace_of; cbn.
      rewrite app_nil_r. reflexivity.
Qed.

(** C8: when a tick of the renewal ticker finds the loop waiting and the
    call to PD fails, the loop logs a warning and goes on with the events
    that follow: the tick makes that one call to PD, and neither panics nor
    returns. *)
Theorem keeper_renewal_failure_not_fatal
  (sp : BRServiceSafePoint) (pre post : list event) (pd pd1 pd2 : PD)
  (t1 : list effect) (lastSafePoint : Z) (e : error) :
  keeperLoop sp pre pd = (Ok Waiting, pd1, t1) ->
  UpdateServiceGCSafePoint pd1 (ID sp) (TTL sp) (Go.sub_uint64 (BackupTS sp) 1)
    = (pd2, (lastSafePoint, Some e)) ->
  let t2 :=
    [ELog DebugLevel "update PD safePoint limit with TTL" [zapObject "safePoint" sp];
     ECallUpdateServiceGCSafePoint (ID sp) (TTL sp) (Go.sub_uint64 (BackupTS sp) 1)]
    ++ (if Go.sub_uint64 (BackupTS sp) 1 <? lastSafePoint
        then [ELog WarnLevel msgLost
                [zapUint64 "lastSafePoint" lastSafePoint; zapObject "safePoint" sp]]
        else [])
    ++ [ELog WarnLevel msgUpdateFailed [zapError (errors.AddStack e)]] in
  keeperGoroutine sp (pre ++ updateTickC :: post) pd =
    after (t1 ++ t2) (keeperGoroutine sp post pd2)
  /\ keeperGoroutine sp (pre ++ [updateTickC]) pd = (Ok Waiting, pd2, t1 ++ t2)
  /\ pd_calls t2 =
       [ECallUpdateServiceGCSafePoint (ID sp) (TTL sp) (Go.sub_uint64 (BackupTS sp) 1)].
Proof.
  intros Hpre Hcall t2.
  assert (Hu : update sp pd1 = (Ok tt, pd2, t2)).
  { rewrite update_eq, Hcall. reflexivity. }
  assert (Hstep : keeperLoop sp [updateTickC] pd1 = (Ok Waiting, pd2, t2)).
  { rewrite (keeperLoop_update sp [] pd1 pd2 t2 Hu). cbn.
    unfold after, ret, outcome, final_pd, trace_of; cbn.
    rewrite app_nil_r. reflexivity. }
  assert (Hgo : forall rest,
             keeperGoroutine sp (pre ++ updateTickC :: rest) pd =
               after (t1 ++ t2) (keeperGoroutine sp rest pd2)).
  { intros rest.
    rewrite (keeperGoroutine_app sp pre (updateTickC :: rest) pd pd1 t1 Hpre).
    change (updateTickC :: rest) with ([updateTickC] ++ rest).
    rewrite (keeperGoroutine_app sp [updateTickC] rest pd1 pd2 t2 Hstep).
    apply after_after. }
  split; [apply Hgo | split].
  - rewrite Hgo. unfold after, outcome, final_pd, trace_of; cbn.
    rewrite app_nil_r. reflexivity.
  - subst t2. destruct (Go.sub_uint64 (BackupTS sp) 1 <? lastSafePoint); reflexivity.
Qed.

(** The loop returns only for a done context that it received while
    waiting. *)
Lemma keeperLoop_Returned_inv sp events :
  forall pd,
    outcome (keeperLoop sp events pd) = Ok Returned ->
    exists pre post,
      events = pre ++ ctxDone :: post
      /\ outcome (keeperLoop sp pre pd) = Ok Waiting.
Proof.
  induction events as [| ev events IH]; intros pd H.
  - cbn in H. discriminate H.
  - destruct ev.
    + exists [], events. split; reflexivity.
    + destruct (update_Ok sp pd) as (pd0 & t0 & Hu & _).
      rewrite (keeperLoop_update sp events _ _ _ Hu), outcome_after in H.
      destruct (IH pd0 H) as (pre & post & -> & Hw).
      exists (updateTickC :: pre), post. split; [reflexivity | ].
      rewrite (keeperLoop_update sp pre _ _ _ Hu), outcome_after. exact Hw.
    + destruct (check_cases sp pd) as [(pd0 & t0 & Hc) | (pd0 & t0 & Hc)].
      * rewrite (keeperLoop_check_Ok sp events _ _ _ Hc), outcome_after in H.
        destruct (IH pd0 H) as (pre & post & -> & Hw).
        exists (checkTickC :: pre), post. split; [reflexivity | ].
        rewrite (keeperLoop_check_Ok sp pre _ _ _ Hc), outcome_after. exact Hw.
      * rewrite (keeperLoop_check_Panic sp events _ _ _ _ Hc) in H. discriminate H.
Qed.

(** C9: when the context is done while the loop waits, the goroutine logs
    its exit, stops both tickers and returns: PD is left as it was, nothing
    that follows is served, there is no panic.  And the goroutine returns in
    no other way: whenever it has returned, a done context was received
    while it was waiting. *)
Theorem keeper_cancel_exits_cleanly (sp : BRServiceSafePoint) (pd : PD) :
  (forall pre post pd1 t1,
     keeperLoop sp pre pd = (Ok Waiting, pd1, t1) ->
     keeperGoroutine sp (pre ++ ctxDone :: post) pd =
       (Ok Returned, pd1,
        t1 ++ [ELog DebugLevel msgExited [];
               ETickerStop checkTick; ETickerStop updateTick]))
  /\ (forall events,
        outcome (keeperGoroutine sp events pd) = Ok Returned ->
        exists pre post,
          events = pre ++ ctxDone :: post
          /\ outcome (keeperLoop sp pre pd) = Ok Waiting).
Proof.
  split.
  - intros pre post pd1 t1 Hpre.
    rewrite (keeperGoroutine_app sp pre (ctxDone :: post) pd pd1 t1 Hpre).
    reflexivity.
  - intros events H. rewrite outcome_keeperGoroutine in H.
    apply keeperLoop_Returned_inv. exact H.
Qed.

End Keeper.

(** ** The properties on runs of the scripted client *)

(** Scenario B of the specification: the safe point is 1500, the backup is
    at 1000. *)
Lemma CheckGCSafePoint_exceeded_iff_witness :
  UpdateGCSafePoint (PD := Script) [(1500, None)] 0 = ([], (1500, None))
  /\ (1000 <= 1500 <->
        outcome (CheckGCSafePoint 1000 ([(1500, None)] : Script)) =
          Ok (Some (WithStack
                      (WithMessage ErrBackupGCSafepointExceeded
                         "GC safepoint %d exceed TS %d" [1500; 1000]))))
  /\ (1000 > 1500 <->
        outcome (CheckGCSafePoint 1000 ([(1500, None)] : Script)) = Ok None).
Proof.
  split; [reflexivity | ].
  apply (CheckGCSafePoint_exceeded_iff 1000 1500 ([(1500, None)] : Script) []).
  reflexivity.
Defined.

Lemma CheckGCSafePoint_query_failure_swallowed_witness :
  UpdateGCSafePoint (PD := Script) [(0, Some (ErrClient "rpc timeout"))] 0
    = ([], (0, Some (ErrClient "rpc timeout")))
  /\ CheckGCSafePoint 1000 ([(0, Some (ErrClient "rpc timeout"))] : Script) =
       (Ok None, [],
        [ECallUpdateGCSafePoint 0;
         ELog WarnLevel "fail to get GC safe point"
           [zapError (WithStack (ErrClient "rpc timeout"))]]).
Proof.
  split; [reflexivity | ].
  apply (CheckGCSafePoint_query_failure_swallowed 1000 0 (ErrClient "rpc timeout")
           ([(0, Some (ErrClient "rpc timeout"))] : Script) []).
  reflexivity.
Defined.

(** Scenario A of the specification: the first call registers
    [(id, 600, 999)]. *)
Lemma UpdateServiceSafePoint_submits_BackupTS_minus_one_witness :
  Go.is_uint64 (BackupTS sp600)
  /\ pd_calls (trace_of (UpdateServiceSafePoint sp600 ([] : Script))) =
       [ECallUpdateServiceGCSafePoint "br-6ba7b810" 600 999].
Proof.
  assert (H : Go.is_uint64 (BackupTS sp600)) by (unfold Go.is_uint64; cbn; lia).
  split; [exact H | ].
  exact (proj1 (UpdateServiceSafePoint_submits_BackupTS_minus_one sp600 ([] : Script) H)).
Defined.

Lemma UpdateServiceSafePoint_lost_is_warning_only_witness :
  2000 > Go.sub_uint64 (BackupTS sp600) 1
  /\ UpdateServiceSafePoint sp600 ([(2000, None)] : Script) =
       (Ok None, [],
        [ELog DebugLevel "update PD safePoint limit with TTL" [zapObject "safePoint" sp600];
         ECallUpdateServiceGCSafePoint "br-6ba7b810" 600 999;
         ELog WarnLevel msgLost
           [zapUint64 "lastSafePoint" 2000; zapObject "safePoint" sp600]]).
Proof.
  assert (H : 2000 > Go.sub_uint64 (BackupTS sp600) 1) by (vm_compute; reflexivity).
  split; [exact H | ].
  exact (proj1 (UpdateServiceSafePoint_lost_is_warning_only sp600
                  ([(2000, None)] : Script) [] 2000 None eq_refl H)).
Defined.

(** PD answers the largest uint64 there is: still no warning. *)
Lemma UpdateServiceSafePoint_BackupTS_zero_wraps_witness :
  BackupTS spZeroTS = 0
  /\ trace_of (UpdateServiceSafePoint spZeroTS ([(Go.MaxUint64, None)] : Script)) =
       [ELog DebugLevel "update PD safePoint limit with TTL" [zapObject "safePoint" spZeroTS];
        ECallUpdateServiceGCSafePoint "br-6ba7b810" 300 18446744073709551615].
Proof.
  split; [reflexivity | ].
  exact (proj1 (proj2 (UpdateServiceSafePoint_BackupTS_zero_wraps spZeroTS
                         ([(Go.MaxUint64, None)] : Script) eq_refl))).
Defined.

(** After one renewal the check finds the safe point at 1500: the events
    that follow the check are not served. *)
Lemma keeper_check_exceeded_is_fatal_witness :
  keeperLoop sp600 [updateTickC] ([(0, None); (1500, None); (0, None)] : Script)
    = (Ok Waiting, [(1500, None); (0, None)],
       [ELog DebugLevel "update PD safePoint limit with TTL" [zapObject "safePoint" sp600];
        ECallUpdateServiceGCSafePoint "br-6ba7b810" 600 999])
  /\ outcome (keeperGoroutine sp600 ([updateTickC] ++ checkTickC :: [updateTickC; checkTickC])
                ([(0, None); (1500, None); (0, None)] : Script))
     = Panic msgExceeded
  /\ final_pd (keeperGoroutine sp600 ([updateTickC] ++ checkTickC :: [updateTickC; checkTickC])
                 ([(0, None); (1500, None); (0, None)] : Script))
     = [(0, None)].
Proof.
  split; [reflexivity | ].
  pose proof (keeper_check_exceeded_is_fatal sp600 [updateTickC] [updateTickC; checkTickC]
                ([(0, None); (1500, None); (0, None)] : Script)
                [(1500, None); (0, None)] [(0, None)] _ _ _ eq_refl eq_refl) as H.
  cbv iota in H. rewrite H. split; reflexivity.
Defined.

(** Scenario A of the specification: a TTL of 600 gives a renewal every
    200 s. *)
Lemma keeper_periods_witness :
  0 < TTL sp600 <= 9223372036
  /\ updateGapTime sp600 = 200 * time.Second.
Proof.
  assert (H : 0 < TTL sp600 <= 9223372036) by (cbn; lia).
  split; [exact H | ].
  exact (proj1 (keeper_periods sp600 ([] : Script) H)).
Defined.

Lemma keeper_start_renews_once_first_witness :
  0 < updateGapTime sp600
  /\ exists pd1 t_sync,
       StartServiceSafePointKeeper sp600 ([(0, None); (900, None)] : Script)
         = (Ok tt, pd1, t_sync ++ [EGo])
       /\ pd_calls t_sync = [ECallUpdateServiceGCSafePoint "br-6ba7b810" 600 999]
       /\ forall events,
            runKeeper sp600 events ([(0, None); (900, None)] : Script) =
              after (t_sync ++ [EGo]) (keeperGoroutine sp600 events pd1).
Proof.
  assert (H : 0 < updateGapTime sp600) by (vm_compute; reflexivity).
  split; [exact H | ].
  exact (keeper_start_renews_once_first sp600 ([(0, None); (900, None)] : Script) H).
Defined.

(** The renewal fails at the first tick; the second tick renews again. *)
Lemma keeper_renewal_failure_not_fatal_witness :
  keeperLoop sp600 [] ([(0, Some (ErrClient "rpc timeout")); (0, None)] : Script)
    = (Ok Waiting, [(0, Some (ErrClient "rpc timeout")); (0, None)], [])
  /\ keeperGoroutine sp600 ([] ++ [updateTickC])
       ([(0, Some (ErrClient "rpc timeout")); (0, None)] : Script)
     = (Ok Waiting, [(0, None)],
        [ELog DebugLevel "update PD safePoint limit with TTL" [zapObject "safePoint" sp600];
         ECallUpdateServiceGCSafePoint "br-6ba7b810" 600 999;
         ELog WarnLevel msgUpdateFailed [zapError (WithStack (ErrClient "rpc timeout"))]]).
Proof.
  split; [reflexivity | ].
  exact (proj1 (proj2 (keeper_renewal_failure_not_fatal sp600 [] [updateTickC]
                         ([(0, Some (ErrClient "rpc timeout")); (0, None)] : Script)
                         _ [(0, None)] [] 0 (ErrClient "rpc timeout")
                         eq_refl eq_refl))).
Defined.

(** The context is done after one renewal: the check that follows is not
    made. *)
Lemma keeper_cancel_exits_cleanly_witness :
  keeperLoop sp600 [updateTickC] ([(0, None); (1500, None)] : Script)
    = (Ok Waiting, [(1500, None)],
       [ELog DebugLevel "update PD safePoint limit with TTL" [zapObject "safePoint" sp600];
        ECallUpdateServiceGCSafePoint "br-6ba7b810" 600 999])
  /\ keeperGoroutine sp600 ([updateTickC] ++ ctxDone :: [checkTickC])
       ([(0, None); (1500, None)] : Script)
     = (Ok Returned, [(1500, None)],
        [ELog DebugLevel "update PD safePoint limit with TTL" [zapObject "safePoint" sp600];
         ECallUpdateServiceGCSafePoint "br-6ba7b810" 600 999;
         ELog DebugLevel msgExited []; ETickerStop checkTick; ETickerStop updateTick])
  /\ exists pre post,
       [updateTickC; ctxDone; checkTickC] = pre ++ ctxDone :: post
       /\ outcome (keeperLoop sp600 pre ([(0, None); (1500, None)] : Script)) = Ok Waiting.
Proof.
  split; [reflexivity | split].
  - exact (proj1 (keeper_cancel_exits_cleanly sp600 ([(0, None); (1500, None)] : Script))
             [updateTickC] [checkTickC] _ _ eq_refl).
  - exact (proj2 (keeper_cancel_exits_cleanly sp600 ([(0, None); (1500, None)] : Script))
             [updateTickC; ctxDone; checkTickC] eq_refl).
Defined.

(** The other periods the specification names. *)
Example updateGapTime_300 :
  updateGapTime {| ID := "br-6ba7b810"; TTL := 300; BackupTS := 1000 |} = 100 * time.Second.
Proof. reflexivity. Qed.

Example updateGapTime_5 :
  updateGapTime {| ID := "br-6ba7b810"; TTL := 5; BackupTS := 1000 |} = 1666666666.
Proof. reflexivity. Qed.

Example updateGapTime_default :
  updateGapTime {| ID := "br-6ba7b810"; TTL := DefaultBRGCSafePointTTL; BackupTS := 1000 |}
    = 100 * time.Second.
Proof. reflexivity. Qed.

(** ** Where the specification says more than the code does *)

(** C5, as stated, fails: a TTL of 9223372037 seconds is positive and an
    int64, but its nanoseconds overflow the Duration, and the period
    computed is negative, not a third of the TTL. *)
Lemma keeper_periods_overflow_counterexample :
  0 < TTL spHugeTTL
  /\ Go.is_int64 (TTL spHugeTTL)
  /\ updateGapTime spHugeTTL = -3074457345569850538
  /\ TTL spHugeTTL * time.Second / 3 = 3074457345666666666
  /\ updateGapTime spHugeTTL <> TTL spHugeTTL * time.Second / 3.
Proof.
  split; [reflexivity | ].
  split; [unfold Go.is_int64; cbn; lia | ].
  split; [reflexivity | ].
  split; [reflexivity | ].
  vm_compute. discriminate.
Qed.

(** C6, as stated, fails: with a TTL of 0, and with a TTL whose nanoseconds
    overflow, the renewal period is not positive, time.NewTicker panics, and
    the keeper has made no renewal call at all. *)
Lemma keeper_start_no_renewal_counterexample :
  runKeeper spZeroTTL [updateTickC; checkTickC] ([] : Script)
    = (Panic "non-positive interval for NewTicker", [], [])
  /\ pd_calls (trace_of (StartServiceSafePointKeeper spZeroTTL ([] : Script))) = []
  /\ runKeeper spHugeTTL [updateTickC; checkTickC] ([] : Script)
    = (Panic "non-positive interval for NewTicker", [], [])
  /\ pd_calls (trace_of (StartServiceSafePointKeeper spHugeTTL ([] : Script))) = [].
Proof. repeat split. Qed.

(** * Further properties of the code *)

(** ** MakeSafePointID and MarshalLogObject *)

(** X1: the IDs made from two UUIDs are equal only when the UUIDs are; every
    ID starts with [br-] and is three characters longer than its UUID. *)
Theorem MakeSafePointID_injective (u1 u2 : string) :
  (MakeSafePointID u1 = MakeSafePointID u2 <-> u1 = u2)
  /\ String.prefix "br-" (MakeSafePointID u1) = true
  /\ String.length (MakeSafePointID u1) = (3 + String.length u1)%nat.
Proof.
  unfold MakeSafePointID. split; [split | split].
  - cbn. intros H. injection H as H. exact H.
  - intros ->. reflexivity.
  - cbn. destruct u1; reflexivity.
  - reflexivity.
Qed.

(** X14: for a TTL of at most 9223372036 seconds either way, the Duration
    that MarshalLogObject prints is [TTL] seconds, not a wrapped value; the
    four fields are added after those the encoder has, in the order ID, TTL,
    BackupTime, BackupTS, and the error is nil. *)
Theorem MarshalLogObject_fields
  (DurationString : time.Duration -> string) (ParseTSString : Z -> string)
  (sp : BRServiceSafePoint) (encoder : list encoded) :
  - 9223372036 <= TTL sp <= 9223372036 ->
  MarshalLogObject DurationString ParseTSString sp encoder =
    (encoder ++
       [AddString "ID" (ID sp);
        AddString "TTL" (DurationString (TTL sp * time.Second));
        AddString "BackupTime" (ParseTSString (BackupTS sp));
        AddUint64 "BackupTS" (BackupTS sp)],
     None).
Proof.
  intros H. unfold MarshalLogObject, Go.mul_int64.
  rewrite GoFacts.to_int64_id by (unfold Go.is_int64, time.Second; lia).
  rewrite <- !app_assoc. reflexivity.
Qed.

(** ** More on the one-shot functions *)
Section OneShotMore.

Context {PD : Type} {client : PDClient PD}.

Lemma pd_calls_app (t t' : list effect) :
  pd_calls (t ++ t') = pd_calls t ++ pd_calls t'.
Proof. apply filter_app. Qed.

(** X2: getGCSafePoint makes one call to PD, with the safe point 0, which
    moves nothing; it never panics.  When the client fails it returns 0 and
    an error with the cause of the client's; when the client succeeds it
    returns the client's value and nil. *)
Theorem getGCSafePoint_probe (pd : PD) :
  trace_of (getGCSafePoint pd) = [ECallUpdateGCSafePoint 0]
  /\ final_pd (getGCSafePoint pd) = fst (UpdateGCSafePoint pd 0)
  /\ exists v err,
       outcome (getGCSafePoint pd) = Ok (v, err)
       /\ Go.is_uint64 v
       /\ option_map errors.Cause err
          = option_map errors.Cause (snd (snd (UpdateGCSafePoint pd 0)))
       /\ v = match err with
              | Some _ => 0
              | None => fst (snd (UpdateGCSafePoint pd 0))
              end.
Proof.
  rewrite getGCSafePoint_eq.
  pose proof (UpdateGCSafePoint_uint64 pd 0) as Hr.
  destruct (UpdateGCSafePoint pd 0) as [pd' [safePoint [e|]]]; cbn in *.
  - repeat split. exists 0, (Some (errors.AddStack e)). repeat split.
    + unfold Go.is_uint64. lia.
    + cbn. rewrite Cause_AddStack. reflexivity.
  - repeat split. exists safePoint, None. repeat split; apply Hr.
Qed.

(** X3: CheckGCSafePoint makes one call to PD, the query with the safe
    point 0, and leaves PD as that call leaves it, for every [ts]; it never
    panics, and an error it returns has the cause
    ErrBackupGCSafepointExceeded. *)
Theorem CheckGCSafePoint_one_probe (ts : Z) (pd : PD) :
  pd_calls (trace_of (CheckGCSafePoint ts pd)) = [ECallUpdateGCSafePoint 0]
  /\ final_pd (CheckGCSafePoint ts pd) = fst (UpdateGCSafePoint pd 0)
  /\ exists err,
       outcome (CheckGCSafePoint ts pd) = Ok err
       /\ option_map errors.Cause err
          = match err with
            | Some _ => Some ErrBackupGCSafepointExceeded
            | None => None
            end.
Proof.
  rewrite CheckGCSafePoint_eq.
  destruct (UpdateGCSafePoint pd 0) as [pd' [safePoint [e|]]]; cbn.
  - repeat split. exists None. split; reflexivity.
  - repeat split. destruct (ts <=? safePoint); eexists; split; reflexivity.
Qed.

(** X4: from the same state of PD, a timestamp that passes the check lets
    every later timestamp pass, and a timestamp that fails it lets every
    earlier timestamp fail. *)
Theorem CheckGCSafePoint_monotone (ts ts' : Z) (pd : PD) :
  ts <= ts' ->
  (outcome (CheckGCSafePoint ts pd) = Ok None ->
   outcome (CheckGCSafePoint ts' pd) = Ok None)
  /\ (outcome (CheckGCSafePoint ts' pd) <> Ok None ->
      outcome (CheckGCSafePoint ts pd) <> Ok None).
Proof.
  intros Hle.
  assert (Hpass : outcome (CheckGCSafePoint ts pd) = Ok None ->
                  outcome (CheckGCSafePoint ts' pd) = Ok None).
  { rewrite !CheckGCSafePoint_eq.
    destruct (UpdateGCSafePoint pd 0) as [pd' [safePoint [e|]]]; cbn.
    - intros _. reflexivity.
    - destruct (Z.leb_spec ts safePoint) as [H1 | H1]; [discriminate | ].
      intros _. destruct (Z.leb_spec ts' safePoint) as [H2 | H2]; [lia | reflexivity]. }
  split; [exact Hpass | ].
  intros Hfail Hok. apply Hfail, Hpass, Hok.
Qed.

(** X5: UpdateServiceSafePoint never panics, and returns an error exactly
    when the client's call does, with the same cause: what PD reports as the
    previous value changes nothing of what is returned. *)
Theorem UpdateServiceSafePoint_error_is_the_clients (sp : BRServiceSafePoint) (pd : PD) :
  exists err,
    outcome (UpdateServiceSafePoint sp pd) = Ok err
    /\ option_map errors.Cause err
       = option_map errors.Cause
           (snd (snd (UpdateServiceGCSafePoint pd (ID sp) (TTL sp)
                        (Go.sub_uint64 (BackupTS sp) 1))))
    /\ final_pd (UpdateServiceSafePoint sp pd)
       = fst (UpdateServiceGCSafePoint pd (ID sp) (TTL sp)
                (Go.sub_uint64 (BackupTS sp) 1)).
Proof.
  rewrite UpdateServiceSafePoint_eq.
  destruct (UpdateServiceGCSafePoint pd (ID sp) (TTL sp) (Go.sub_uint64 (BackupTS sp) 1))
    as [pd' [lastSafePoint err]]; cbn.
  exists (errors.Trace err).
  split; [reflexivity | split; [apply Cause_Trace | reflexivity]].
Qed.

(** X6: for a uint64 BackupTS, the renewal logs that the service safe point
    is lost exactly when BackupTS is not 0 and the previous value PD reports
    is BackupTS or more. *)
Theorem UpdateServiceSafePoint_lost_iff
  (sp : BRServiceSafePoint) (pd pd' : PD) (lastSafePoint : Z) (err : option error) :
  Go.is_uint64 (BackupTS sp) ->
  UpdateServiceGCSafePoint pd (ID sp) (TTL sp) (Go.sub_uint64 (BackupTS sp) 1)
    = (pd', (lastSafePoint, err)) ->
  In (ELog WarnLevel msgLost
        [zapUint64 "lastSafePoint" lastSafePoint; zapObject "safePoint" sp])
     (trace_of (UpdateServiceSafePoint sp pd))
  <-> 0 < BackupTS sp <= lastSafePoint.
Proof.
  intros Hts Hc.
  pose proof (UpdateServiceGCSafePoint_uint64 pd (ID sp) (TTL sp)
                (Go.sub_uint64 (BackupTS sp) 1)) as Hr.
  rewrite UpdateServiceSafePoint_eq, Hc. rewrite Hc in Hr. cbn in Hr.
  unfold Go.is_uint64 in Hts, Hr.
  assert (Hsub : Go.sub_uint64 (BackupTS sp) 1 < lastSafePoint
                 <-> 0 < BackupTS sp <= lastSafePoint).
  { destruct (Z.eq_dec (BackupTS sp) 0) as [Hz | Hnz].
    - rewrite Hz. change (Go.sub_uint64 0 1) with (2 ^ 64 - 1). lia.
    - rewrite GoFacts.sub_uint64_one_pos by (unfold Go.is_uint64; lia). lia. }
  unfold trace_of; cbn [snd].
  destruct (Z.ltb_spec (Go.sub_uint64 (BackupTS sp) 1) lastSafePoint) as [Hlt | Hge].
  - split; [intros _; apply Hsub, Hlt | ].
    intros _. cbn. right. right. left. reflexivity.
  - split; [ | intros H; apply Hsub in H; lia].
    cbn. intros [H | [H | []]]; discriminate H.
Qed.

End OneShotMore.

(** ** More on the keeper *)
Section KeeperMore.

Context {PD : Type} {client : PDClient PD}.

Implicit Types (sp : BRServiceSafePoint) (pd : PD) (t : list effect).

Lemma ticker_stops_app t t' :
  ticker_stops (t ++ t') = ticker_stops t ++ ticker_stops t'.
Proof. apply filter_app. Qed.

Lemma trace_after {A} t (r : result A * PD * list effect) :
  trace_of (after t r) = t ++ trace_of r.
Proof. reflexivity. Qed.

(** A check calls PD once and stops no ticker, whether it panics or not. *)
Lemma check_trace sp pd :
  pd_calls (trace_of (check sp pd)) = [ECallUpdateGCSafePoint 0]
  /\ ticker_stops (trace_of (check sp pd)) = [].
Proof.
  destruct (CheckGCSafePoint_total (BackupTS sp) pd) as (err & pd' & t & H).
  rewrite (check_eq _ _ _ _ _ H).
  assert (Ht : pd_calls t = [ECallUpdateGCSafePoint 0] /\ ticker_stops t = []).
  { rewrite CheckGCSafePoint_eq in H.
    destruct (UpdateGCSafePoint pd 0) as [pd0 [safePoint [e|]]]; cbn in H;
      injection H as _ _ <-; split; reflexivity. }
  destruct Ht as [Hc Hs].
  destruct err; unfold trace_of; cbn [snd].
  - rewrite pd_calls_app, ticker_stops_app, Hc, Hs. split; reflexivity.
  - split; assumption.
Qed.

(** A renewal stops no ticker. *)
Lemma update_trace sp pd :
  pd_calls (trace_of (update sp pd))
    = [ECallUpdateServiceGCSafePoint (ID sp) (TTL sp) (Go.sub_uint64 (BackupTS sp) 1)]
  /\ ticker_stops (trace_of (update sp pd)) = [].
Proof.
  rewrite update_eq.
  destruct (UpdateServiceGCSafePoint pd (ID sp) (TTL sp) (Go.sub_uint64 (BackupTS sp) 1))
    as [pd' [lastSafePoint err]].
  destruct (Go.sub_uint64 (BackupTS sp) 1 <? lastSafePoint), err; split; reflexivity.
Qed.

(** The loop, one event at a time, in terms of traces. *)
Lemma keeperLoop_cons_trace sp ev rest pd :
  (exists pd' t,
     keeperLoop sp (ev :: rest) pd = after t (keeperLoop sp rest pd')
     /\ ev <> ctxDone
     /\ pd_calls t = tickCall sp ev /\ ticker_stops t = [])
  \/ (outcome (keeperLoop sp (ev :: rest) pd) <> Ok Waiting
      /\ keeperLoop sp (ev :: rest) pd = keeperLoop sp [ev] pd
      /\ pd_calls (trace_of (keeperLoop sp [ev] pd)) = tickCall sp ev
      /\ ticker_stops (trace_of (keeperLoop sp [ev] pd)) = []).
Proof.
  destruct ev.
  - right. repeat split. cbn. discriminate.
  - left. destruct (update_Ok sp pd) as (pd' & t & Hu & _).
    pose proof (update_trace sp pd) as [Hc Hs]. rewrite Hu in Hc, Hs.
    exists pd', t. split; [apply keeperLoop_update, Hu | ].
    split; [discriminate | split; assumption].
  - pose proof (check_trace sp pd) as [Hc Hs].
    destruct (check_cases sp pd) as [(pd' & t & H) | (pd' & t & H)];
      rewrite H in Hc, Hs.
    + left. exists pd', t. split; [apply keeperLoop_check_Ok, H | ].
      split; [discriminate | split; assumption].
    + right. rewrite !(keeperLoop_check_Panic sp _ pd _ _ _ H).
      repeat split; try assumption. cbn. discriminate.
Qed.

(** X7: for every TTL from -9223372036 to 0 the renewal period is not
    positive: the keeper panics in time.NewTicker, before the renewal and
    before the goroutine, with PD untouched and nothing in the trace. *)
Theorem keeper_nonpositive_TTL_panics
  (sp : BRServiceSafePoint) (events : list event) (pd : PD) :
  - 9223372036 <= TTL sp <= 0 ->
  StartServiceSafePointKeeper sp pd
    = (Panic "non-positive interval for NewTicker", pd, [])
  /\ runKeeper sp events pd
     = (Panic "non-positive interval for NewTicker", pd, []).
Proof.
  intros H.
  pose proof (StartServiceSafePointKeeper_panics sp pd (updateGapTime_nonpos sp H)) as Hs.
  split; [exact Hs | ].
  unfold runKeeper.
  exact (bind_Panic (StartServiceSafePointKeeper sp) (fun _ => keeperGoroutine sp events)
           pd _ pd [] Hs).
Qed.

(** The calls of the loop are those of the events it has served. *)
Lemma keeperLoop_calls sp events :
  forall pd,
    exists served rest,
      events = served ++ rest
      /\ pd_calls (trace_of (keeperLoop sp events pd)) = flat_map (tickCall sp) served
      /\ ticker_stops (trace_of (keeperLoop sp events pd)) = []
      /\ (outcome (keeperLoop sp events pd) = Ok Waiting -> rest = []).
Proof.
  induction events as [| ev events IH]; intros pd.
  - exists [], []. repeat split.
  - destruct (keeperLoop_cons_trace sp ev events pd)
      as [(pd' & t & Heq & _ & Hc & Hs) | (Hnw & Heq & Hc & Hs)].
    + destruct (IH pd') as (served & rest & -> & Hcalls & Hstops & Hw).
      exists (ev :: served), rest. rewrite Heq, trace_after, outcome_after.
      rewrite pd_calls_app, ticker_stops_app, Hc, Hs, Hcalls, Hstops.
      repeat split. exact Hw.
    + exists [ev], events. rewrite Heq at 1 2. rewrite Hc, Hs. cbn [flat_map].
      rewrite app_nil_r. repeat split. intros Hw. contradiction.
Qed.

Lemma trace_keeperGoroutine sp events pd :
  trace_of (keeperGoroutine sp events pd) =
    trace_of (keeperLoop sp events pd)
    ++ match outcome (keeperLoop sp events pd) with
       | Ok Waiting => []
       | _ => [ETickerStop checkTick; ETickerStop updateTick]
       end.
Proof.
  unfold keeperGoroutine, deferring.
  destruct (keeperLoop sp events pd) as [[[[|]|msg] pd1] t1]; cbn;
    rewrite ?app_nil_r; reflexivity.
Qed.

(** The calls of the loop, by the way it has ended. *)
Lemma keeperLoop_calls_exact sp events :
  forall pd,
    match outcome (keeperLoop sp events pd) with
    | Ok Waiting =>
        ~ In ctxDone events
        /\ pd_calls (trace_of (keeperLoop sp events pd))
           = flat_map (tickCall sp) events
        /\ List.length (pd_calls (trace_of (keeperLoop sp events pd)))
           = List.length events
    | Ok Returned =>
        exists pre post,
          events = pre ++ ctxDone :: post
          /\ ~ In ctxDone pre
          /\ pd_calls (trace_of (keeperLoop sp events pd))
             = flat_map (tickCall sp) pre
          /\ List.length (pd_calls (trace_of (keeperLoop sp events pd)))
             = List.length pre
    | Panic _ =>
        exists pre post,
          events = pre ++ checkTickC :: post
          /\ ~ In ctxDone pre
          /\ pd_calls (trace_of (keeperLoop sp events pd))
             = flat_map (tickCall sp) (pre ++ [checkTickC])
          /\ List.length (pd_calls (trace_of (keeperLoop sp events pd)))
             = S (List.length pre)
    end.
Proof.
  assert (Hstep : forall ev rest (c : effect) pd pd0 t0,
             ev <> ctxDone -> tickCall sp ev = [c] ->
             keeperLoop sp (ev :: rest) pd = after t0 (keeperLoop sp rest pd0) ->
             pd_calls t0 = [c] ->
             match outcome (keeperLoop sp rest pd0) with
             | Ok Waiting =>
                 ~ In ctxDone rest
                 /\ pd_calls (trace_of (keeperLoop sp rest pd0))
                    = flat_map (tickCall sp) rest
                 /\ List.length (pd_calls (trace_of (keeperLoop sp rest pd0)))
                    = List.length rest
             | Ok Returned =>
                 exists pre post,
                   rest = pre ++ ctxDone :: post
                   /\ ~ In ctxDone pre
                   /\ pd_calls (trace_of (keeperLoop sp rest pd0))
                      = flat_map (tickCall sp) pre
                   /\ List.length (pd_calls (trace_of (keeperLoop sp rest pd0)))
                      = List.length pre
             | Panic _ =>
                 exists pre post,
                   rest = pre ++ checkTickC :: post
                   /\ ~ In ctxDone pre
                   /\ pd_calls (trace_of (keeperLoop sp rest pd0))
                      = flat_map (tickCall sp) (pre ++ [checkTickC])
                   /\ List.length (pd_calls (trace_of (keeperLoop sp rest pd0)))
                      = S (List.length pre)
             end ->
             match outcome (keeperLoop sp (ev :: rest) pd) with
             | Ok Waiting =>
                 ~ In ctxDone (ev :: rest)
                 /\ pd_calls (trace_of (keeperLoop sp (ev :: rest) pd))
                    = flat_map (tickCall sp) (ev :: rest)
                 /\ List.length (pd_calls (trace_of (keeperLoop sp (ev :: rest) pd)))
                    = List.length (ev :: rest)
             | Ok Returned =>
                 exists pre post,
                   ev :: rest = pre ++ ctxDone :: post
                   /\ ~ In ctxDone pre
                   /\ pd_calls (trace_of (keeperLoop sp (ev :: rest) pd))
                      = flat_map (tickCall sp) pre
                   /\ List.length (pd_calls (trace_of (keeperLoop sp (ev :: rest) pd)))
                      = List.length pre
             | Panic _ =>
                 exists pre post,
                   ev :: rest = pre ++ checkTickC :: post
                   /\ ~ In ctxDone pre
                   /\ pd_calls (trace_of (keeperLoop sp (ev :: rest) pd))
                      = flat_map (tickCall sp) (pre ++ [checkTickC])
                   /\ List.length (pd_calls (trace_of (keeperLoop sp (ev :: rest) pd)))
                      = S (List.length pre)
             end).
  { intros ev rest c pd pd0 t0 Hev Htick Heq Hc IH.
    rewrite Heq, outcome_after, trace_after, pd_calls_app, Hc.
    assert (Hnotin : forall l, ~ In ctxDone l -> ~ In ctxDone (ev :: l)).
    { intros l Hl [H | H]; [exact (Hev H) | exact (Hl H)]. }
    destruct (outcome (keeperLoop sp rest pd0)) as [[|]|msg].
    - destruct IH as (Hn & Hcalls & Hlen).
      split; [exact (Hnotin _ Hn) | split].
      + cbn [flat_map]. rewrite Htick, Hcalls. reflexivity.
      + cbn [app List.length]. rewrite Hlen. reflexivity.
    - destruct IH as (pre & post & -> & Hn & Hcalls & Hlen).
      exists (ev :: pre), post.
      split; [reflexivity | split; [exact (Hnotin _ Hn) | split]].
      + cbn [flat_map]. rewrite Htick, Hcalls. reflexivity.
      + cbn [app List.length]. rewrite Hlen. reflexivity.
    - destruct IH as (pre & post & -> & Hn & Hcalls & Hlen).
      exists (ev :: pre), post.
      split; [reflexivity | split; [exact (Hnotin _ Hn) | split]].
      + cbn [flat_map app]. rewrite Htick, Hcalls. reflexivity.
      + cbn [app List.length]. rewrite Hlen. reflexivity. }
  induction events as [| ev events IH]; intros pd.
  - cbn. split; [intros [] | split; reflexivity].
  - destruct ev.
    + cbn. exists [], events.
      split; [reflexivity | split; [intros [] | split; reflexivity]].
    + destruct (update_Ok sp pd) as (pd0 & t0 & Hu & Hc).
      apply (Hstep updateTickC events
               (ECallUpdateServiceGCSafePoint (ID sp) (TTL sp)
                  (Go.sub_uint64 (BackupTS sp) 1)) pd pd0 t0);
        [discriminate | reflexivity | apply keeperLoop_update, Hu | exact Hc | apply IH].
    + pose proof (check_trace sp pd) as [Hc _].
      destruct (check_cases sp pd) as [(pd0 & t0 & H) | (pd0 & t0 & H)];
        rewrite H in Hc.
      * apply (Hstep checkTickC events (ECallUpdateGCSafePoint 0) pd pd0 t0);
          [discriminate | reflexivity | apply keeperLoop_check_Ok, H | exact Hc | apply IH].
      * rewrite (keeperLoop_check_Panic sp events pd _ _ _ H).
        unfold outcome, trace_of in *; cbn [fst snd] in *.
        exists [], events.
        split; [reflexivity | split; [intros [] | split]].
        -- rewrite Hc. reflexivity.
        -- rewrite Hc. reflexivity.
Qed.

(** X10: the calls to PD of the goroutine are those of the ticks it has
    served, one call for each tick and in the order of the ticks: a renewal
    with [(ID, TTL, BackupTS - 1)] for a tick of the renewal ticker, the
    query with the safe point 0 for a tick of the check ticker.  While it
    waits it has served every event; when it has returned, every event
    before the first done context and none after; when it has panicked,
    the events up to a tick of the check ticker, that tick included, and
    none after. *)
Theorem keeper_calls_follow_ticks
  (sp : BRServiceSafePoint) (events : list event) (pd : PD) :
  match outcome (keeperGoroutine sp events pd) with
  | Ok Waiting =>
      ~ In ctxDone events
      /\ pd_calls (trace_of (keeperGoroutine sp events pd))
         = flat_map (tickCall sp) events
      /\ List.length (pd_calls (trace_of (keeperGoroutine sp events pd)))
         = List.length events
  | Ok Returned =>
      exists pre post,
        events = pre ++ ctxDone :: post
        /\ ~ In ctxDone pre
        /\ pd_calls (trace_of (keeperGoroutine sp events pd))
           = flat_map (tickCall sp) pre
        /\ List.length (pd_calls (trace_of (keeperGoroutine sp events pd)))
           = List.length pre
  | Panic _ =>
      exists pre post,
        events = pre ++ checkTickC :: post
        /\ ~ In ctxDone pre
        /\ pd_calls (trace_of (keeperGoroutine sp events pd))
           = flat_map (tickCall sp) (pre ++ [checkTickC])
        /\ List.length (pd_calls (trace_of (keeperGoroutine sp events pd)))
           = S (List.length pre)
  end.
Proof.
  pose proof (keeperLoop_calls_exact sp events pd) as H.
  rewrite trace_keeperGoroutine, pd_calls_app, outcome_keeperGoroutine.
  destruct (outcome (keeperLoop sp events pd)) as [[|]|msg];
    cbn [pd_calls filter is_pd_call]; rewrite app_nil_r; exact H.
Qed.

(** X9: while the goroutine waits it has stopped no ticker; once it has
    returned or panicked it has stopped each ticker once, the check ticker
    first, and these two stops are the last thing it does. *)
Theorem keeper_stops_tickers_on_exit
  (sp : BRServiceSafePoint) (events : list event) (pd : PD) :
  match outcome (keeperGoroutine sp events pd) with
  | Ok Waiting => ticker_stops (trace_of (keeperGoroutine sp events pd)) = []
  | _ =>
      ticker_stops (trace_of (keeperGoroutine sp events pd))
        = [ETickerStop checkTick; ETickerStop updateTick]
      /\ exists t,
           trace_of (keeperGoroutine sp events pd)
             = t ++ [ETickerStop checkTick; ETickerStop updateTick]
  end.
Proof.
  destruct (keeperLoop_calls sp events pd) as (_ & _ & _ & _ & Hs & _).
  rewrite trace_keeperGoroutine, ticker_stops_app, Hs, outcome_keeperGoroutine.
  destruct (outcome (keeperLoop sp events pd)) as [[|]|msg]; cbn;
    try reflexivity; (split; [reflexivity | eexists; reflexivity]).
Qed.

(** X8: every call the keeper makes to PD, from its start on and whatever
    the events and the answers, is the renewal with
    [(ID, TTL, BackupTS - 1)] or the query with the safe point 0. *)
Theorem keeper_only_two_calls
  (sp : BRServiceSafePoint) (events : list event) (pd : PD) :
  Forall (fun e =>
            e = ECallUpdateServiceGCSafePoint (ID sp) (TTL sp)
                  (Go.sub_uint64 (BackupTS sp) 1)
            \/ e = ECallUpdateGCSafePoint 0)
         (pd_calls (trace_of (runKeeper sp events pd))).
Proof.
  assert (Hloop : forall pd',
             Forall (fun e =>
                       e = ECallUpdateServiceGCSafePoint (ID sp) (TTL sp)
                             (Go.sub_uint64 (BackupTS sp) 1)
                       \/ e = ECallUpdateGCSafePoint 0)
                    (pd_calls (trace_of (keeperGoroutine sp events pd')))).
  { intros pd'.
    destruct (keeperLoop_calls sp events pd') as (served & rest & _ & Hc & _ & _).
    rewrite trace_keeperGoroutine, pd_calls_app, Hc.
    apply Forall_app. split.
    - apply Forall_flat_map, Forall_forall. intros ev _.
      destruct ev; cbn [tickCall].
      + constructor.
      + constructor; [left; reflexivity | constructor].
      + constructor; [right; reflexivity | constructor].
    - destruct (outcome (keeperLoop sp events pd')) as [[|]|msg]; cbn; constructor. }
  destruct (Z.leb_spec (updateGapTime sp) 0) as [Hle | Hpos].
  - unfold runKeeper.
    rewrite (bind_Panic (StartServiceSafePointKeeper sp)
               (fun _ => keeperGoroutine sp events) pd _ pd []
               (StartServiceSafePointKeeper_panics sp pd Hle)).
    constructor.
  - destruct (update_Ok sp pd) as (pd1 & t & Hu & Hcalls).
    unfold runKeeper.
    rewrite (bind_Ok (StartServiceSafePointKeeper sp)
               (fun _ => keeperGoroutine sp events) pd tt pd1 _
               (StartServiceSafePointKeeper_eq sp pd pd1 t Hpos Hu)).
    rewrite trace_after, !pd_calls_app. cbn [app pd_calls filter is_pd_call].
    rewrite Hcalls. cbn [app].
    constructor; [left; reflexivity | apply Hloop].
Qed.

(** [check] panics only with the abort message, and only when the query
    has succeeded with a safe point at BackupTS or above. *)
Lemma check_Panic_inv sp pd msg pd' t :
  check sp pd = (Panic msg, pd', t) ->
  msg = msgExceeded
  /\ exists safePoint,
       snd (UpdateGCSafePoint pd 0) = (safePoint, None)
       /\ BackupTS sp <= safePoint.
Proof.
  destruct (CheckGCSafePoint_total (BackupTS sp) pd) as (err & pd0 & t0 & H).
  rewrite (check_eq _ _ _ _ _ H).
  rewrite CheckGCSafePoint_eq in H.
  destruct (UpdateGCSafePoint pd 0) as [pd1 [safePoint [e|]]]; cbn in H.
  - injection H as <- _ _. discriminate.
  - destruct (Z.leb_spec (BackupTS sp) safePoint) as [Hle | Hgt];
      injection H as <- _ _; [ | discriminate].
    intros Hp. injection Hp as <- _ _. split; [reflexivity | ].
    exists safePoint. split; [reflexivity | exact Hle].
Qed.

Lemma update_final_pd sp pd :
  exists t,
    update sp pd =
      (Ok tt,
       fst (UpdateServiceGCSafePoint pd (ID sp) (TTL sp) (Go.sub_uint64 (BackupTS sp) 1)),
       t).
Proof.
  rewrite update_eq.
  destruct (UpdateServiceGCSafePoint pd (ID sp) (TTL sp) (Go.sub_uint64 (BackupTS sp) 1))
    as [pd' [lastSafePoint err]].
  eexists. reflexivity.
Qed.

Lemma check_final_pd sp pd r pd' t :
  check sp pd = (r, pd', t) -> pd' = fst (UpdateGCSafePoint pd 0).
Proof.
  destruct (CheckGCSafePoint_total (BackupTS sp) pd) as (err & pd0 & t0 & H).
  rewrite (check_eq _ _ _ _ _ H).
  rewrite CheckGCSafePoint_eq in H.
  destruct (UpdateGCSafePoint pd 0) as [pd1 [safePoint [e|]]]; cbn in H;
    injection H as _ <- _; destruct err; intros Hc; injection Hc as _ <- _;
    reflexivity.
Qed.

(** Once the loop has returned or panicked, more events change nothing. *)
Lemma keeperLoop_done_app sp events more :
  forall pd,
    outcome (keeperLoop sp events pd) <> Ok Waiting ->
    keeperLoop sp (events ++ more) pd = keeperLoop sp events pd.
Proof.
  induction events as [| ev events IH]; intros pd H.
  - cbn in H. contradiction.
  - destruct ev; cbn [app].
    + reflexivity.
    + destruct (update_Ok sp pd) as (pd0 & t0 & Hu & _).
      rewrite (keeperLoop_update sp events _ _ _ Hu), outcome_after in H.
      rewrite (keeperLoop_update sp events _ _ _ Hu),
        (keeperLoop_update sp (events ++ more) _ _ _ Hu), (IH _ H).
      reflexivity.
    + destruct (check_cases sp pd) as [(pd0 & t0 & Hc) | (pd0 & t0 & Hc)].
      * rewrite (keeperLoop_check_Ok sp events _ _ _ Hc), outcome_after in H.
        rewrite (keeperLoop_check_Ok sp events _ _ _ Hc),
          (keeperLoop_check_Ok sp (events ++ more) _ _ _ Hc), (IH _ H).
        reflexivity.
      * rewrite !(keeperLoop_check_Panic sp _ _ _ _ _ Hc). reflexivity.
Qed.

(** X11: once the goroutine has returned or panicked, the events that come
    later change nothing: its outcome, the state of PD and the trace are
    those it ended with. *)
Theorem keeper_ended_stays_ended
  (sp : BRServiceSafePoint) (events more : list event) (pd : PD) :
  outcome (keeperGoroutine sp events pd) <> Ok Waiting ->
  keeperGoroutine sp (events ++ more) pd = keeperGoroutine sp events pd.
Proof.
  intros H. rewrite outcome_keeperGoroutine in H.
  unfold keeperGoroutine, deferring.
  rewrite (keeperLoop_done_app sp events more pd H). reflexivity.
Qed.

Lemma keeperLoop_Panic_inv sp events :
  forall pd msg,
    outcome (keeperLoop sp events pd) = Panic msg ->
    msg = msgExceeded
    /\ exists pre post pd1 t1 safePoint,
         events = pre ++ checkTickC :: post
         /\ keeperLoop sp pre pd = (Ok Waiting, pd1, t1)
         /\ snd (UpdateGCSafePoint pd1 0) = (safePoint, None)
         /\ BackupTS sp <= safePoint.
Proof.
  induction events as [| ev events IH]; intros pd msg H.
  - cbn in H. discriminate H.
  - destruct ev.
    + cbn in H. discriminate H.
    + destruct (update_Ok sp pd) as (pd0 & t0 & Hu & _).
      rewrite (keeperLoop_update sp events _ _ _ Hu), outcome_after in H.
      destruct (IH pd0 msg H) as (Hm & pre & post & pd1 & t1 & v & -> & Hw & Hq & Hle).
      split; [exact Hm | ].
      exists (updateTickC :: pre), post, pd1, (t0 ++ t1), v.
      split; [reflexivity | split; [ | split; assumption]].
      rewrite (keeperLoop_update sp pre _ _ _ Hu), Hw. reflexivity.
    + destruct (check_cases sp pd) as [(pd0 & t0 & Hc) | (pd0 & t0 & Hc)].
      * rewrite (keeperLoop_check_Ok sp events _ _ _ Hc), outcome_after in H.
        destruct (IH pd0 msg H) as (Hm & pre & post & pd1 & t1 & v & -> & Hw & Hq & Hle).
        split; [exact Hm | ].
        exists (checkTickC :: pre), post, pd1, (t0 ++ t1), v.
        split; [reflexivity | split; [ | split; assumption]].
        rewrite (keeperLoop_check_Ok sp pre _ _ _ Hc), Hw. reflexivity.
      * rewrite (keeperLoop_check_Panic sp events _ _ _ _ Hc) in H.
        cbn in H. injection H as <-.
        destruct (check_Panic_inv sp pd _ _ _ Hc) as (_ & v & Hq & Hle).
        split; [reflexivity | ].
        exists [], events, pd, [], v. repeat split; assumption.
Qed.

(** X12: the goroutine panics for one reason only.  When it has panicked,
    the message is the abort message of the check, and a tick of the check
    ticker was served, while the loop was waiting, at which the query
    succeeded with a safe point at BackupTS or above. *)
Theorem keeper_panics_only_when_exceeded
  (sp : BRServiceSafePoint) (events : list event) (pd : PD) (msg : string) :
  outcome (keeperGoroutine sp events pd) = Panic msg ->
  msg = msgExceeded
  /\ exists pre post pd1 t1 safePoint,
       events = pre ++ checkTickC :: post
       /\ keeperLoop sp pre pd = (Ok Waiting, pd1, t1)
       /\ snd (UpdateGCSafePoint pd1 0) = (safePoint, None)
       /\ BackupTS sp <= safePoint.
Proof.
  rewrite outcome_keeperGoroutine. apply keeperLoop_Panic_inv.
Qed.

(** X13: let the states PD goes through satisfy an invariant under which
    the query of the safe point either fails or answers a value below
    BackupTS.  Then the goroutine never panics, whatever the events: an
    outage of PD, however long, is never fatal. *)
Theorem keeper_never_panics_while_safe
  (sp : BRServiceSafePoint) (Inv : PD -> Prop) (events : list event) (pd : PD) :
  (forall pd0, Inv pd0 -> Inv (fst (UpdateGCSafePoint pd0 0))) ->
  (forall pd0, Inv pd0 ->
     Inv (fst (UpdateServiceGCSafePoint pd0 (ID sp) (TTL sp)
                 (Go.sub_uint64 (BackupTS sp) 1)))) ->
  (forall pd0, Inv pd0 ->
     snd (snd (UpdateGCSafePoint pd0 0)) = None ->
     fst (snd (UpdateGCSafePoint pd0 0)) < BackupTS sp) ->
  Inv pd ->
  exists st, outcome (keeperGoroutine sp events pd) = Ok st.
Proof.
  intros Hq Hu Hsafe. rewrite outcome_keeperGoroutine.
  revert pd. induction events as [| ev events IH]; intros pd Hi.
  - exists Waiting. reflexivity.
  - destruct ev.
    + exists Returned. reflexivity.
    + destruct (update_final_pd sp pd) as (t & Hup).
      rewrite (keeperLoop_update sp events _ _ _ Hup), outcome_after.
      apply IH, Hu, Hi.
    + destruct (check_cases sp pd) as [(pd0 & t0 & Hc) | (pd0 & t0 & Hc)].
      * rewrite (keeperLoop_check_Ok sp events _ _ _ Hc), outcome_after.
        apply IH. rewrite (check_final_pd sp pd _ _ _ Hc). apply Hq, Hi.
      * destruct (check_Panic_inv sp pd _ _ _ Hc) as (_ & v & Hv & Hle).
        pose proof (Hsafe pd Hi) as Hs. rewrite Hv in Hs. cbn in Hs.
        specialize (Hs eq_refl). lia.
Qed.

(** X15: ticks of the renewal ticker alone never end the goroutine: however
    many there are and whatever PD answers to each, failures included, the
    loop is left waiting, having made one renewal call for each tick. *)
Theorem keeper_renewals_never_end
  (sp : BRServiceSafePoint) (events : list event) (pd : PD) :
  Forall (fun ev => ev = updateTickC) events ->
  outcome (keeperGoroutine sp events pd) = Ok Waiting
  /\ pd_calls (trace_of (keeperGoroutine sp events pd))
     = repeat (ECallUpdateServiceGCSafePoint (ID sp) (TTL sp)
                 (Go.sub_uint64 (BackupTS sp) 1))
         (List.length events).
Proof.
  intros Hall.
  assert (Hloop : forall pd0,
             outcome (keeperLoop sp events pd0) = Ok Waiting
             /\ pd_calls (trace_of (keeperLoop sp events pd0))
                = repeat (ECallUpdateServiceGCSafePoint (ID sp) (TTL sp)
                            (Go.sub_uint64 (BackupTS sp) 1))
                    (List.length events)).
  { induction Hall as [| ev events -> _ IH]; intros pd0.
    - split; reflexivity.
    - destruct (update_Ok sp pd0) as (pd1 & t & Hu & Hc).
      rewrite (keeperLoop_update sp events _ _ _ Hu), outcome_after, trace_after.
      destruct (IH pd1) as [Ho Ht].
      split; [exact Ho | ].
      rewrite pd_calls_app, Hc, Ht. reflexivity. }
  destruct (Hloop pd) as [Ho Ht].
  rewrite outcome_keeperGoroutine, trace_keeperGoroutine, Ho, app_nil_r.
  split; [reflexivity | exact Ht].
Qed.

End KeeperMore.

(** ** The further properties on concrete runs *)

Lemma MakeSafePointID_injective_witness :
  (MakeSafePointID "6ba7b810" = MakeSafePointID "6ba7b811" <-> "6ba7b810" = "6ba7b811")
  /\ String.prefix "br-" (MakeSafePointID "6ba7b810") = true
  /\ String.length (MakeSafePointID "6ba7b810") = (3 + String.length "6ba7b810")%nat.
Proof. exact (MakeSafePointID_injective "6ba7b810" "6ba7b811"). Defined.

Lemma MarshalLogObject_fields_witness :
  - 9223372036 <= TTL sp600 <= 9223372036
  /\ MarshalLogObject (fun _ => "10m0s") (fun _ => "1970-01-01 00:00:00 +0000 UTC") sp600 []
     = ([AddString "ID" "br-6ba7b810";
         AddString "TTL" "10m0s";
         AddString "BackupTime" "1970-01-01 00:00:00 +0000 UTC";
         AddUint64 "BackupTS" 1000], None).
Proof.
  assert (H : - 9223372036 <= TTL sp600 <= 9223372036) by (cbn; lia).
  split; [exact H | ].
  exact (MarshalLogObject_fields (fun _ => "10m0s")
           (fun _ => "1970-01-01 00:00:00 +0000 UTC") sp600 [] H).
Defined.

(** The safe point is 1500: 2000 passes, so 3000 passes; 1200 fails, so
    1000 fails. *)
Lemma CheckGCSafePoint_monotone_witness :
  2000 <= 3000
  /\ outcome (CheckGCSafePoint 3000 ([(1500, None)] : Script)) = Ok None
  /\ 1000 <= 1200
  /\ outcome (CheckGCSafePoint 1000 ([(1500, None)] : Script)) <> Ok None.
Proof.
  assert (H1 : 2000 <= 3000) by lia.
  assert (H2 : 1000 <= 1200) by lia.
  split; [exact H1 | split; [ | split; [exact H2 | ]]].
  - exact (proj1 (CheckGCSafePoint_monotone 2000 3000 ([(1500, None)] : Script) H1)
             eq_refl).
  - apply (proj2 (CheckGCSafePoint_monotone 1000 1200 ([(1500, None)] : Script) H2)).
    vm_compute. discriminate.
Defined.

(** PD reports 1000, the backup timestamp itself, as the previous value. *)
Lemma UpdateServiceSafePoint_lost_iff_witness :
  Go.is_uint64 (BackupTS sp600)
  /\ (In (ELog WarnLevel msgLost
            [zapUint64 "lastSafePoint" 1000; zapObject "safePoint" sp600])
         (trace_of (UpdateServiceSafePoint sp600 ([(1000, None)] : Script)))
      <-> 0 < BackupTS sp600 <= 1000).
Proof.
  assert (H : Go.is_uint64 (BackupTS sp600)) by (unfold Go.is_uint64; cbn; lia).
  split; [exact H | ].
  exact (UpdateServiceSafePoint_lost_iff sp600 ([(1000, None)] : Script) [] 1000 None
           H eq_refl).
Defined.

Lemma keeper_nonpositive_TTL_panics_witness :
  - 9223372036 <= TTL spZeroTTL <= 0
  /\ runKeeper spZeroTTL [updateTickC; ctxDone] ([(0, None)] : Script)
     = (Panic "non-positive interval for NewTicker", [(0, None)], []).
Proof.
  assert (H : - 9223372036 <= TTL spZeroTTL <= 0) by (cbn; lia).
  split; [exact H | ].
  exact (proj2 (keeper_nonpositive_TTL_panics spZeroTTL [updateTickC; ctxDone]
                  ([(0, None)] : Script) H)).
Defined.

(** The context is done at the first event: the ticks that come later make
    no call. *)
Lemma keeper_ended_stays_ended_witness :
  outcome (keeperGoroutine sp600 [ctxDone] ([(1500, None)] : Script)) <> Ok Waiting
  /\ keeperGoroutine sp600 ([ctxDone] ++ [checkTickC; updateTickC]) ([(1500, None)] : Script)
     = keeperGoroutine sp600 [ctxDone] ([(1500, None)] : Script).
Proof.
  assert (H : outcome (keeperGoroutine sp600 [ctxDone] ([(1500, None)] : Script))
              <> Ok Waiting) by (vm_compute; discriminate).
  split; [exact H | ].
  exact (keeper_ended_stays_ended sp600 [ctxDone] [checkTickC; updateTickC]
           ([(1500, None)] : Script) H).
Defined.

Lemma keeper_panics_only_when_exceeded_witness :
  outcome (keeperGoroutine sp600 [updateTickC; checkTickC; updateTickC]
             ([(0, None); (1500, None)] : Script)) = Panic msgExceeded
  /\ exists pre post pd1 t1 safePoint,
       [updateTickC; checkTickC; updateTickC] = pre ++ checkTickC :: post
       /\ keeperLoop sp600 pre ([(0, None); (1500, None)] : Script) = (Ok Waiting, pd1, t1)
       /\ snd (UpdateGCSafePoint pd1 0) = (safePoint, None)
       /\ BackupTS sp600 <= safePoint.
Proof.
  split; [reflexivity | ].
  exact (proj2 (keeper_panics_only_when_exceeded sp600 [updateTickC; checkTickC; updateTickC]
                  ([(0, None); (1500, None)] : Script) msgExceeded eq_refl)).
Defined.

(** PD is unreachable, with a safe point that would be past the backup:
    no check panics. *)
Lemma keeper_never_panics_while_safe_witness :
  exists st,
    outcome (keeperGoroutine sp600 [checkTickC; updateTickC; checkTickC]
               ((5000, Some (ErrClient "unreachable")) : Fixed)) = Ok st.
Proof.
  apply (keeper_never_panics_while_safe sp600
           (fun pd : Fixed => pd = (5000, Some (ErrClient "unreachable")))).
  - intros pd0 ->. reflexivity.
  - intros pd0 ->. reflexivity.
  - intros pd0 -> H. discriminate H.
  - reflexivity.
Defined.

(** Three renewals, the second of which fails. *)
Lemma keeper_renewals_never_end_witness :
  Forall (fun ev => ev = updateTickC) [updateTickC; updateTickC; updateTickC]
  /\ outcome (keeperGoroutine sp600 [updateTickC; updateTickC; updateTickC]
                ([(0, None); (0, Some (ErrClient "rpc timeout")); (999, None)] : Script))
     = Ok Waiting.
Proof.
  assert (H : Forall (fun ev => ev = updateTickC) [updateTickC; updateTickC; updateTickC])
    by (repeat constructor).
  split; [exact H | ].
  exact (proj1 (keeper_renewals_never_end sp600 [updateTickC; updateTickC; updateTickC]
                  ([(0, None); (0, Some (ErrClient "rpc timeout")); (999, None)] : Script)
                  H)).
Defined.

(** The check panics at the second event: the renewal that comes third
    makes no call. *)
Lemma keeper_calls_follow_ticks_witness :
  exists pre post,
    [updateTickC; checkTickC; updateTickC] = pre ++ checkTickC :: post
    /\ ~ In ctxDone pre
    /\ pd_calls (trace_of (keeperGoroutine sp600 [updateTickC; checkTickC; updateTickC]
                             ([(0, None); (1500, None)] : Script)))
       = flat_map (tickCall sp600) (pre ++ [checkTickC])
    /\ List.length
         (pd_calls (trace_of (keeperGoroutine sp600 [updateTickC; checkTickC; updateTickC]
                                ([(0, None); (1500, None)] : Script))))
       = S (List.length pre).
Proof.
  exact (keeper_calls_follow_ticks sp600 [updateTickC; checkTickC; updateTickC]
           ([(0, None); (1500, None)] : Script)).
Defined.

(** An error of the client that has a stack, as the PD client returns them,
    is logged and returned as it is, with no second stack. *)
Example CheckGCSafePoint_stacked_client_error :
  CheckGCSafePoint 1000 ([(0, Some (WithStack (ErrClient "rpc timeout")))] : Script)
    = (Ok None, [],
       [ECallUpdateGCSafePoint 0;
        ELog WarnLevel "fail to get GC safe point"
          [zapError (WithStack (ErrClient "rpc timeout"))]]).
Proof. reflexivity. Qed.

Example UpdateServiceSafePoint_stacked_client_error :
  outcome (UpdateServiceSafePoint sp600
             ([(0, Some (WithStack (ErrClient "rpc timeout")))] : Script))
    = Ok (Some (WithStack (ErrClient "rpc timeout"))).
Proof. reflexivity. Qed.
